(** * UMDA optimizer (qiskit/algorithms/optimizers/umda.py)

    A shallow embedding of the class [UMDA] and a verification of the
    properties its specification states about it.

    - Python [int] is [Z]; Python [float] and [numpy.float64] are IEEE 754
      binary64 numbers, taken from the standard library's executable
      specification [SpecFloat] (precision 53, infinite exponent 1024).
    - Exceptions are values of an error monad.
    - The instance attributes are the fields of the record [UMDA].
    - The global random source [algorithm_globals.random] is an explicit
      state that is threaded through every sampling call.
    - The external numeric routines ([numpy] sampling, [scipy.stats.norm.fit],
      [numpy.argsort]) are parameters of the development. *)

From Stdlib Require Import ZArith List Bool Lia Permutation Sorted.
From Stdlib Require Import Floats.SpecFloat.
Import ListNotations.

Set Implicit Arguments.
Open Scope Z_scope.

(** ** Exceptions and the error monad *)

Inductive exn : Type :=
| ValueError
| IndexError
| OverflowError
| ZeroDivisionError.

Inductive result (A : Type) : Type :=
| Ok (a : A)
| Raise (e : exn).

Arguments Ok {A} a.
Arguments Raise {A} e.

Definition bind {A B : Type} (m : result A) (k : A -> result B) : result B :=
  match m with
  | Ok a => k a
  | Raise e => Raise e
  end.

Notation "x <- m ;; k" := (bind m (fun x => k))
  (at level 61, m at next level, right associativity).
Notation "' p <- m ;; k" := (bind m (fun p => k))
  (at level 61, p pattern, m at next level, right associativity).

Fixpoint mapM {A B : Type} (f : A -> result B) (l : list A) : result (list B) :=
  match l with
  | [] => Ok []
  | x :: xs => y <- f x ;; ys <- mapM f xs ;; Ok (y :: ys)
  end.

(** ** Python floats *)

Module PyFloat.

Definition float : Type := spec_float.

Definition prec : Z := 53.
Definition emax : Z := 1024.

Definition nan : float := S754_nan.

(** [float(z)] for a Python int: the nearest binary64 number, ties to
    even; Python raises [OverflowError] where the rounding overflows. *)
Definition of_int (z : Z) : result float :=
  match binary_normalize prec emax z 0 false with
  | S754_infinity _ => Raise OverflowError
  | x => Ok x
  end.

(** An integer that binary64 represents exactly (every [|z| <= 2^53] is
    one), as a float without the error case. *)
Definition of_small_int (z : Z) : float := binary_normalize prec emax z 0 false.

Definition mul : float -> float -> float := SFmul prec emax.
Definition add : float -> float -> float := SFadd prec emax.
Definition sub : float -> float -> float := SFsub prec emax.
Definition div : float -> float -> float := SFdiv prec emax.
Definition sqrt : float -> float := SFsqrt prec emax.

(** Python [x < y] and [x == y] on floats. *)
Definition ltb : float -> float -> bool := SFltb.
Definition eqb : float -> float -> bool := SFeqb.
Definition leb : float -> float -> bool := SFleb.

Definition is_nan (x : float) : bool :=
  match x with S754_nan => true | _ => false end.

Definition is_finite (x : float) : bool :=
  match x with S754_zero _ | S754_finite _ _ _ => true | _ => false end.

(** Python [int(x)]: truncation toward zero; [ValueError] on NaN and
    [OverflowError] on an infinity. *)
Definition to_int (x : float) : result Z :=
  match x with
  | S754_nan => Raise ValueError
  | S754_infinity _ => Raise OverflowError
  | S754_zero _ => Ok 0
  | S754_finite s m e =>
      let a := if 0 <=? e then Z.pos m * 2 ^ e else Z.pos m / 2 ^ (- e) in
      Ok (if s then - a else a)
  end.

(** The exact integer value of a float, when it has one. *)
Definition integer_value (x : float) : option Z :=
  match x with
  | S754_zero _ => Some 0
  | S754_finite s m e =>
      if 0 <=? e then Some ((if s then -1 else 1) * (Z.pos m * 2 ^ e))
      else if Z.pos m mod 2 ^ (- e) =? 0
           then Some ((if s then -1 else 1) * (Z.pos m / 2 ^ (- e)))
           else None
  | _ => None
  end.

(** Python [z == x] for an int [z] and a float [x]: the comparison is
    exact, no rounding of [z] takes place. *)
Definition int_eqb (z : Z) (x : float) : bool :=
  match integer_value x with
  | Some v => z =? v
  | None => false
  end.

(** Python [z / d] for ints (true division): the exact quotient rounded
    once to the nearest binary64 number, ties to even, whatever the size
    of the operands; [ZeroDivisionError] for [d = 0] and [OverflowError]
    where the rounded quotient is out of range.  The quotient is taken
    with at least 64 significant bits and a sticky bit for the remainder,
    which [binary_normalize] then rounds as it would the exact value. *)
Definition int_truediv (z d : Z) : result float :=
  if d =? 0 then Raise ZeroDivisionError
  else if z =? 0 then Ok (S754_zero (d <? 0))
  else
    let a := Z.abs z in
    let b := Z.abs d in
    let k := Z.max 0 (64 + Z.log2 b - Z.log2 a) in
    let q := (a * 2 ^ k) / b in
    let sticky := if (a * 2 ^ k) mod b =? 0 then 0 else 1 in
    let m := 2 * q + sticky in
    match binary_normalize prec emax
            (if Bool.eqb (z <? 0) (d <? 0) then m else - m) (- (k + 1)) false
    with
    | S754_infinity _ => Raise OverflowError
    | x => Ok x
    end.

(** The decimal literal [n / 10^k] with [n] and [10^k] exactly
    representable: the float nearest to the quotient. *)
Definition literal (n : Z) (k : Z) : float :=
  div (of_small_int n) (of_small_int (10 ^ k)).

(** Python [z * x] for an int [z] and a float [x]. *)
Definition int_mul (z : Z) (x : float) : result float :=
  fz <- of_int z ;; Ok (mul fz x).

End PyFloat.

Import PyFloat.

(** ** Small list operations of Python and numpy *)

(** [l[:k]] : a negative bound counts from the end. *)
Definition slice_to {A : Type} (k : Z) (l : list A) : list A :=
  if 0 <=? k then firstn (Z.to_nat k) l
  else firstn (length l - Z.to_nat (- k)) l.

(** [l[i]] for an index in range, [IndexError] otherwise. *)
Definition get_item {A : Type} (i : nat) (l : list A) : result A :=
  match nth_error l i with
  | Some a => Ok a
  | None => Raise IndexError
  end.

(** [l[i] = a]. *)
Fixpoint set_item {A : Type} (i : nat) (a : A) (l : list A) : result (list A) :=
  match l, i with
  | [], _ => Raise IndexError
  | _ :: t, O => Ok (a :: t)
  | h :: t, S i' => t' <- set_item i' a t ;; Ok (h :: t')
  end.

(** [a[idx]] / [np.take(a, idx)] with a list of indices. *)
Definition take {A : Type} (l : list A) (idx : list nat) : result (list A) :=
  mapM (fun i => get_item i l) idx.

(** [a[:, i]] for a two-dimensional array held as the list of its rows. *)
Definition column {A : Type} (i : nat) (a : list (list A)) : result (list A) :=
  mapM (get_item i) a.

(** The builtin [min] over a sequence of floats: the first element is the
    running minimum, replaced by each later element that is [<] it. *)
Definition py_min (l : list float) : result float :=
  match l with
  | [] => Raise ValueError
  | a :: t => Ok (fold_left (fun m b => if ltb b m then b else m) t a)
  end.

(** [np.where(l == a)[0][0]]: the first position holding a value equal to
    [a]; indexing the empty answer raises [IndexError]. *)
Fixpoint where_first (l : list float) (a : float) : result nat :=
  match l with
  | [] => Raise IndexError
  | b :: t => if eqb b a then Ok O else i <- where_first t a ;; Ok (S i)
  end.

(** [np.vstack((a, b))]: the rows of [a] followed by those of [b]; all rows
    must have one length.  (An array without rows keeps no column count in
    this representation.) *)
Definition same_width {A : Type} (a : list (list A)) : bool :=
  match a with
  | [] => true
  | r :: t => forallb (fun r' => Nat.eqb (length r') (length r)) t
  end.

Definition vstack {A : Type} (a b : list (list A)) : result (list (list A)) :=
  if same_width (a ++ b) then Ok (a ++ b) else Raise ValueError.

(** ** The optimizer state *)

(** [best_ind_global] is the int placeholder until an individual is stored. *)
Inductive point : Type :=
| Scalar (z : Z)
| Individual (p : list float).

(** The 4 x n array [vector]: row 0 the means, row 1 the standard
    deviations, rows 2 and 3 the initial range. *)
Record prob_vector : Type := mk_vector {
  v_mu : list float;
  v_std : list float;
  v_min : list float;
  v_max : list float
}.

Record UMDA : Type := mkUMDA {
  disp : bool;
  size_gen : Z;
  max_iter : Z;
  alpha : float;
  n_variables : Z;
  vector : prob_vector;
  dead_iter : float;
  best_mae_global : float;
  truncation_length : Z;
  generation : list (list float);
  best_ind_global : point;
  history : list float;
  evaluations : list float
}.

(** [OptimizerResult] with the three attributes [minimize] assigns. *)
Record OptimizerResult : Type := mkResult {
  result_x : point;
  result_fun : float;
  result_nfev : Z
}.

Definition ELITE_FACTOR : float := Eval vm_compute in literal 4 1.
Definition STD_BOUND : float := Eval vm_compute in literal 3 1.
Definition np_pi : float := S754_finite false 7074237752028440 (-51).
Definition BEST_MAE_INIT : Z := 999999999999.
Definition BEST_IND_INIT : Z := 9999999.

(** *** Attribute updates *)

Definition with_size_gen (v : Z) (s : UMDA) : UMDA :=
  mkUMDA (disp s) v (max_iter s) (alpha s) (n_variables s) (vector s)
    (dead_iter s) (best_mae_global s) (truncation_length s) (generation s)
    (best_ind_global s) (history s) (evaluations s).



Definition with_vector (v : prob_vector) (s : UMDA) : UMDA :=
  mkUMDA (disp s) (size_gen s) (max_iter s) (alpha s) (n_variables s) v
    (dead_iter s) (best_mae_global s) (truncation_length s) (generation s)
    (best_ind_global s) (history s) (evaluations s).

Definition with_best (f : float) (p : point) (s : UMDA) : UMDA :=
  mkUMDA (disp s) (size_gen s) (max_iter s) (alpha s) (n_variables s) (vector s)
    (dead_iter s) f (truncation_length s) (generation s)
    p (history s) (evaluations s).

Definition with_generation (g : list (list float)) (s : UMDA) : UMDA :=
  mkUMDA (disp s) (size_gen s) (max_iter s) (alpha s) (n_variables s) (vector s)
    (dead_iter s) (best_mae_global s) (truncation_length s) g
    (best_ind_global s) (history s) (evaluations s).

Definition with_history (h : list float) (s : UMDA) : UMDA :=
  mkUMDA (disp s) (size_gen s) (max_iter s) (alpha s) (n_variables s) (vector s)
    (dead_iter s) (best_mae_global s) (truncation_length s) (generation s)
    (best_ind_global s) h (evaluations s).

Definition with_evaluations (e : list float) (s : UMDA) : UMDA :=
  mkUMDA (disp s) (size_gen s) (max_iter s) (alpha s) (n_variables s) (vector s)
    (dead_iter s) (best_mae_global s) (truncation_length s) (generation s)
    (best_ind_global s) (history s) e.

(** The property setters of the class that the specification discusses. *)
Definition set_size_gen (value : Z) (s : UMDA) : UMDA := with_size_gen value s.

(** ** The methods of the class *)

Inductive control : Type :=
| Continue
| Break.

Section Optimizer.

(** The state of [algorithm_globals.random] and one normal deviate drawn
    from it for a given mean and standard deviation. *)
Variable RNG : Type.
Variable draw : RNG -> float -> float -> float * RNG.

(** [scipy.stats.norm.fit] on a one-dimensional sample: the fitted mean
    and standard deviation, or an exception. *)
Variable norm_fit : list float -> result (float * float).

(** [ndarray.argsort()] with numpy's default sort kind. *)
Variable argsort : list float -> list nat.

(** The objective function, total on vectors. *)
Definition objective : Type := list float -> float.

(** *** [Generator.normal(loc, scale, size=[m, n])] *)

Fixpoint sample_row (g : RNG) (params : list (float * float))
  : list float * RNG :=
  match params with
  | [] => ([], g)
  | (m, sd) :: t =>
      let '(v, g1) := draw g m sd in
      let '(vs, g2) := sample_row g1 t in
      (v :: vs, g2)
  end.

Fixpoint sample_rows (m : nat) (g : RNG) (params : list (float * float))
  : list (list float) * RNG :=
  match m with
  | O => ([], g)
  | S m' =>
      let '(r, g1) := sample_row g params in
      let '(rs, g2) := sample_rows m' g1 params in
      (r :: rs, g2)
  end.

(** Broadcasting a one-dimensional parameter array to [n] columns. *)
Definition broadcast (n : Z) (l : list float) : result (list float) :=
  if Z.of_nat (length l) =? n then Ok l
  else match l with
       | [a] => Ok (repeat a (Z.to_nat n))
       | _ => Raise ValueError
       end.

Definition sign_bit (a : float) : bool :=
  match a with
  | S754_zero s | S754_infinity s | S754_finite s _ _ => s
  | S754_nan => false
  end.

(** [ValueError] on a negative scale, on a negative dimension and on
    parameters that do not broadcast to [n] columns.  The arrays are lists
    of any length: numpy's limits on the size of an array (a dimension of
    [2^63] or more, more memory than the machine has) are limits of the
    machine and are outside the model. *)
Definition normal (g : RNG) (loc scale : list float) (size : Z * Z)
  : result (list (list float) * RNG) :=
  let '(m, n) := size in
  if existsb sign_bit scale then Raise ValueError
  else if (m <? 0) || (n <? 0) then Raise ValueError
  else
    loc' <- broadcast n loc ;;
    scale' <- broadcast n scale ;;
    Ok (sample_rows (Z.to_nat m) g (combine loc' scale')).

(** *** [_initialization] *)

Definition _initialization (n_variables : Z) : result prob_vector :=
  if n_variables <? 0 then Raise ValueError
  else
    let n := Z.to_nat n_variables in
    Ok (mk_vector (repeat np_pi n)
                  (repeat (literal 5 1) n)
                  (repeat (of_small_int 0) n)
                  (repeat (mul np_pi (of_small_int 2)) n)).

(** *** [__init__] *)

Definition __init__ (g : RNG) (maxiter size_gen n_variables : Z)
  (alpha : float) (disp : bool) : result (UMDA * RNG) :=
  vec <- _initialization n_variables ;;
  dead <- int_truediv maxiter 5 ;;
  prod <- int_mul size_gen alpha ;;
  tl <- to_int prod ;;
  '(gen, g') <- normal g (v_mu vec) (v_std vec) (size_gen, n_variables) ;;
  Ok (mkUMDA disp size_gen maxiter alpha n_variables vec dead
             (of_small_int BEST_MAE_INIT) tl gen
             (Scalar BEST_IND_INIT) [] [], g').

(** *** [_new_generation] *)

Definition elite_count (s : UMDA) : result Z :=
  to_int (mul ELITE_FACTOR (of_small_int (Z.of_nat (length (generation s))))).

Definition _new_generation (s : UMDA) (g : RNG) : result (UMDA * RNG) :=
  '(gen, g') <- normal g (v_mu (vector s)) (v_std (vector s))
                       (size_gen s, n_variables s) ;;
  k <- elite_count s ;;
  let elite := slice_to k (generation s) in
  stacked <- vstack elite gen ;;
  Ok (with_generation stacked s, g').

(** *** [_truncation] *)

Definition best_indices (s : UMDA) : list nat :=
  slice_to (truncation_length s) (argsort (evaluations s)).

Definition _truncation (s : UMDA) : result UMDA :=
  let idx := best_indices s in
  gen <- take (generation s) idx ;;
  ev <- take (evaluations s) idx ;;
  Ok (with_evaluations ev (with_generation gen s)).

(** *** [_check_generation] : [np.apply_along_axis(f, 1, generation)] *)

Definition _check_generation (f : objective) (s : UMDA) : result UMDA :=
  match generation s with
  | [] => Raise ValueError
  | rows => Ok (with_evaluations (map f rows) s)
  end.

(** *** [_update_vector] *)

Definition update_dimension (gen : list (list float)) (v : prob_vector)
  (i : nat) : result prob_vector :=
  col <- column i gen ;;
  '(m, sd) <- norm_fit col ;;
  mu1 <- set_item i m (v_mu v) ;;
  std1 <- set_item i sd (v_std v) ;;
  cur <- get_item i std1 ;;
  std2 <- (if ltb cur STD_BOUND then set_item i STD_BOUND std1 else Ok std1) ;;
  Ok (mk_vector mu1 std2 (v_min v) (v_max v)).

Fixpoint update_dimensions (gen : list (list float)) (v : prob_vector)
  (range : list nat) : result prob_vector :=
  match range with
  | [] => Ok v
  | i :: t => v1 <- update_dimension gen v i ;; update_dimensions gen v1 t
  end.

Definition _update_vector (s : UMDA) : result UMDA :=
  v <- update_dimensions (generation s) (vector s)
                         (seq 0 (Z.to_nat (n_variables s))) ;;
  Ok (with_vector v s).

(** *** [minimize] *)

(** The variables of one activation of [minimize]: the instance, the
    random source and the local [not_better]. *)
Record frame : Type := mk_frame {
  self : UMDA;
  rng : RNG;
  not_better : Z
}.

(** The body of the [for] loop; [Break] is the [break] statement. *)
Definition iteration (f : objective) (c : frame) : result (frame * control) :=
  s1 <- _check_generation f (self c) ;;
  s2 <- _truncation s1 ;;
  s3 <- _update_vector s2 ;;
  best_mae_local <- py_min (evaluations s3) ;;
  let s4 := with_history (history s3 ++ [best_mae_local]) s3 in
  i <- where_first (evaluations s4) best_mae_local ;;
  best_ind_local <- get_item i (generation s4) ;;
  if ltb best_mae_local (best_mae_global s4) then
    let s5 := with_best best_mae_local (Individual best_ind_local) s4 in
    '(s6, g') <- _new_generation s5 (rng c) ;;
    Ok (mk_frame s6 g' 0, Continue)
  else
    let nb := not_better c + 1 in
    if int_eqb nb (dead_iter s4) then Ok (mk_frame s4 (rng c) nb, Break)
    else
      '(s6, g') <- _new_generation s4 (rng c) ;;
      Ok (mk_frame s6 g' nb, Continue).

(** [for _ in range(n): body].  The second component counts the
    iterations that were executed. *)
Fixpoint for_range (f : objective) (n : nat) (c : frame)
  : result (frame * nat) :=
  match n with
  | O => Ok (c, O)
  | S n' =>
      '(c1, ctl) <- iteration f c ;;
      match ctl with
      | Break => Ok (c1, 1%nat)
      | Continue => '(c2, k) <- for_range f n' c1 ;; Ok (c2, S k)
      end
  end.

Definition minimize (f : objective) (s : UMDA) (g : RNG)
  : result (OptimizerResult * UMDA * RNG) :=
  let s0 := with_history [] s in
  '(c, _) <- for_range f (Z.to_nat (max_iter s0)) (mk_frame s0 g 0) ;;
  let s1 := self c in
  Ok (mkResult (best_ind_global s1) (best_mae_global s1)
               (Z.of_nat (length (history s1)) * size_gen s1),
      s1, rng c).

End Optimizer.

(** ** Reference instances of the external routines

    Executable stand-ins used to run the optimizer on concrete inputs: a
    deterministic source of deviates, the moment estimates that
    [norm.fit] computes, and an index sort. *)

Module Instances.

(** The random source is a counter that walks a fixed table of standard
    deviates; a draw is [loc + scale * z]. *)
Definition deviate (g : nat) : float :=
  match Nat.modulo g 4 with
  | 0%nat => of_small_int (-1)
  | 1%nat => of_small_int 1
  | 2%nat => of_small_int 0
  | _ => literal 5 1
  end.

Definition draw (g : nat) (loc scale : float) : float * nat :=
  (add loc (mul scale (deviate g)), S g).

(** Mean and root of the mean squared deviation, in binary64; non-finite
    data are refused, an empty sample yields [0.0 / 0] twice. *)
Definition fsum (l : list float) : float := fold_left add l (of_small_int 0).

Definition fmean (l : list float) : float :=
  div (fsum l) (of_small_int (Z.of_nat (length l))).

Definition norm_fit (data : list float) : result (float * float) :=
  if forallb is_finite data then
    let loc := fmean data in
    let sq := map (fun a => let d := sub a loc in mul d d) data in
    Ok (loc, sqrt (fmean sq))
  else Raise ValueError.

(** Insertion of the indices [0, 1, ...] in turn, each after the indices
    whose value is not larger; NaN sorts last. *)
Definition before (a b : float) : bool :=
  ltb a b || (is_nan b && negb (is_nan a)).

Fixpoint insert_index (ev : list float) (i : nat) (sorted : list nat)
  : list nat :=
  match sorted with
  | [] => [i]
  | j :: t =>
      if before (nth i ev nan) (nth j ev nan) then i :: j :: t
      else j :: insert_index ev i t
  end.

Definition argsort (ev : list float) : list nat :=
  fold_left (fun acc i => insert_index ev i acc) (seq 0 (length ev)) [].

(** An index sort that returns equal keys in reverse index order: it
    inserts each index before the indices whose value is not smaller. *)
Fixpoint insert_index_front (ev : list float) (i : nat) (sorted : list nat)
  : list nat :=
  match sorted with
  | [] => [i]
  | j :: t =>
      if before (nth j ev nan) (nth i ev nan) then j :: insert_index_front ev i t
      else i :: j :: t
  end.

Definition argsort_reversing (ev : list float) : list nat :=
  fold_left (fun acc i => insert_index_front ev i acc) (seq 0 (length ev)) [].

(** Objective functions used in the examples. *)
Definition constant (c : float) : objective := fun _ => c.

Definition first_coordinate : objective := fun p => nth 0 p nan.

End Instances.

(** The reference instances plugged into the constructor, the loop and
    [minimize]. *)
Abbreviation reference_init :=
  (fun (maxiter size_gen n_variables : Z) (alpha : float) =>
     __init__ Instances.draw 0%nat maxiter size_gen n_variables alpha false).

Abbreviation reference_iteration :=
  (iteration Instances.draw Instances.norm_fit Instances.argsort).

Abbreviation reference_loop :=
  (for_range Instances.draw Instances.norm_fit Instances.argsort).

Abbreviation reference_minimize :=
  (minimize Instances.draw Instances.norm_fit Instances.argsort).

(** The first two steps of an iteration on the reference instances: the
    population is evaluated and truncated. *)
Definition reference_truncated (f : objective) (s : UMDA) : result UMDA :=
  s1 <- _check_generation f s ;; _truncation Instances.argsort s1.

(** The value of a computation that is known to succeed. *)
Definition unwrap {A : Type} (d : A) (r : result A) : A :=
  match r with
  | Ok a => a
  | Raise _ => d
  end.

Definition blank : UMDA :=
  mkUMDA false 0 0 nan 0 (mk_vector [] [] [] []) nan nan 0 [] (Scalar 0) [] [].

(** [UMDA(maxiter=10, size_gen=6, n_variables=2, alpha=0.5)] after the
    evaluation and truncation of its first population (objective: the
    first coordinate), and the random source at that point. *)
Definition truncated_example : UMDA * nat :=
  Eval vm_compute in
    unwrap (blank, 0%nat)
      ('(s, g) <- reference_init 10 6 2 (literal 5 1) ;;
       s2 <- reference_truncated Instances.first_coordinate s ;;
       Ok (s2, g)).

(** [UMDA(maxiter=10, size_gen=4, n_variables=1, alpha=0.5)] as constructed,
    and the random source after the construction. *)
Definition constructed_example : UMDA * nat :=
  Eval vm_compute in unwrap (blank, 0%nat) (reference_init 10 4 1 (literal 5 1)).

(** The same instance holding an elite set whose only column is constant. *)
Definition degenerate_example : UMDA :=
  with_generation [[of_small_int 1]; [of_small_int 1]] (fst constructed_example).

(** [UMDA(maxiter=10, size_gen=4, n_variables=2, alpha=0.5)] with its
    first population evaluated (objective: the first coordinate). *)
Definition evaluated_example : UMDA :=
  Eval vm_compute in
    unwrap blank
      ('(s, _) <- reference_init 10 4 2 (literal 5 1) ;;
       _check_generation Instances.first_coordinate s).

(** The instance [constructed_example] after a first call of [minimize]
    on the objective [x -> x[0]], and the random source after that call. *)
Definition reused_example : UMDA * nat :=
  Eval vm_compute in
    unwrap (blank, 0%nat)
      ('(r, s, g) <- reference_minimize Instances.first_coordinate
                       (fst constructed_example) (snd constructed_example) ;;
       Ok (s, g)).

(** The outcome of [minimize] on [constructed_example] for the constant
    objective [10^12], which is above the initial best-ever fitness. *)
Definition stalled_example : OptimizerResult * UMDA * nat :=
  Eval vm_compute in
    unwrap (mkResult (Scalar 0) nan 0, blank, 0%nat)
      (reference_minimize (Instances.constant (of_small_int (10 ^ 12)))
         (fst constructed_example) (snd constructed_example)).

(** [UMDA(maxiter=7, size_gen=4, n_variables=1, alpha=0.5)] as constructed:
    its [dead_iter] is [7 / 5 = 1.4]. *)
Definition seven_example : UMDA * nat :=
  Eval vm_compute in unwrap (blank, 0%nat) (reference_init 7 4 1 (literal 5 1)).

(** The order in which the best-ever fitness may move: it stays, or it
    is replaced by a strictly smaller value. *)
Definition not_worse (b' b : float) : Prop := b' = b \/ ltb b' b = true.

(** "[a] is not below [b]" as Python decides it: [not (a < b)]. *)
Definition not_below (b a : float) : Prop := ltb a b = false.

(** What [argsort] promises about its answer on [ev]: a permutation of
    the positions, along which no later value is below an earlier one. *)
Definition sorts (ev : list float) (idx : list nat) : Prop :=
  Permutation idx (seq 0 (length ev)) /\
  StronglySorted (fun i j => not_below (nth i ev nan) (nth j ev nan)) idx.

(** A decision procedure for [sorts], to check an answer of [argsort] on
    given data. *)
Fixpoint ascending_fromb (ev : list float) (idx : list nat) : bool :=
  match idx with
  | [] => true
  | i :: t =>
      forallb (fun j => negb (ltb (nth j ev nan) (nth i ev nan))) t
      && ascending_fromb ev t
  end.

Definition sortsb (ev : list float) (idx : list nat) : bool :=
  Nat.eqb (length idx) (length ev)
  && forallb (fun i => existsb (Nat.eqb i) idx) (seq 0 (length ev))
  && ascending_fromb ev idx.

(** The attributes that only the constructor and the setters write. *)
Definition settings (s : UMDA) : bool * Z * Z * float * Z * float * Z :=
  (disp s, size_gen s, max_iter s, alpha s, n_variables s, dead_iter s,
   truncation_length s).

(** The comparison of two finite floats of one sign: exponents first,
    then mantissas. *)
Definition lex (e1 : Z) (m1 : positive) (e2 : Z) (m2 : positive) : comparison :=
  match e1 ?= e2 with
  | Lt => Lt
  | Gt => Gt
  | Eq => Pos.compare_cont Eq m1 m2
  end.

(** The value that [_update_vector] leaves in row 1 for a fitted standard
    deviation. *)
Definition clamp (sd : float) : float :=
  if ltb sd STD_BOUND then STD_BOUND else sd.

(** What one execution of the loop body does to the bookkeeping: the
    settings stay, the iteration's best value [local] (the objective at
    an individual of the population that entered the iteration) is
    appended to the history, and the best-ever record and the stagnation
    counter follow the comparison [local < best_mae_global]. *)
Definition iteration_post {RNG : Type} (f : objective) (c c' : frame RNG)
  (ctl : control)
  : Prop :=
  settings (self c') = settings (self c) /\
  exists local,
    history (self c') = history (self c) ++ [local] /\
    (exists p, In p (generation (self c)) /\ local = f p) /\
    if ltb local (best_mae_global (self c)) then
      best_mae_global (self c') = local /\
      (exists ind, best_ind_global (self c') = Individual ind) /\
      not_better c' = 0 /\ ctl = Continue
    else
      best_mae_global (self c') = best_mae_global (self c) /\
      best_ind_global (self c') = best_ind_global (self c) /\
      not_better c' = not_better c + 1 /\
      (ctl = Break <->
       int_eqb (not_better c + 1) (dead_iter (self c)) = true).

(** The arrays of an instance have the shapes that fit its [n_variables]:
    every individual has [n_variables] coordinates and the rows of means
    and of standard deviations have [n_variables] entries. *)
Definition well_formed (s : UMDA) : Prop :=
  0 <= n_variables s /\
  Forall (fun row => length row = Z.to_nat (n_variables s)) (generation s) /\
  length (v_mu (vector s)) = Z.to_nat (n_variables s) /\
  length (v_std (vector s)) = Z.to_nat (n_variables s).

(** The evaluations are those of the population, position by position. *)
Definition aligned (f : objective) (s : UMDA) : Prop :=
  evaluations s = map f (generation s).

(** The best-ever record is coherent for the objective [f]: when it holds
    an individual, the fitness it holds compares equal (Python [==]) to the
    objective at that individual. *)
Definition record_consistent (f : objective) (s : UMDA) : Prop :=
  match best_ind_global s with
  | Scalar _ => True
  | Individual p => eqb (f p) (best_mae_global s) = true
  end.

(** [argsort] answers with as many positions as it was given values. *)
Definition keeps_length (argsort : list float -> list nat) : Prop :=
  forall ev, length (argsort ev) = length ev.

(** The population is large enough for the truncation to select
    [truncation_length] individuals, and no larger than an elite set plus
    one batch of fresh individuals. *)
Definition population_in_bounds (s : UMDA) : Prop :=
  0 <= truncation_length s /\
  truncation_length s <= size_gen s /\
  truncation_length s <= Z.of_nat (length (generation s)) /\
  Z.of_nat (length (generation s)) <= truncation_length s + size_gen s.

(** The setter of [n_variables]. *)
Definition with_n_variables (v : Z) (s : UMDA) : UMDA :=
  mkUMDA (disp s) (size_gen s) (max_iter s) (alpha s) v (vector s)
    (dead_iter s) (best_mae_global s) (truncation_length s) (generation s)
    (best_ind_global s) (history s) (evaluations s).

Definition set_n_variables (value : Z) (s : UMDA) : UMDA :=
  with_n_variables value s.

(** * Proofs *)

Unset Implicit Arguments.

(** ** The error monad *)

Lemma bind_Ok {A B : Type} (m : result A) (k : A -> result B) (b : B) :
  bind m k = Ok b -> exists a, m = Ok a /\ k a = Ok b.
Proof.
  destruct m as [a|e]; simpl; intros H; [eauto | discriminate].
Qed.

Ltac inv_bind H :=
  let a := fresh "a" in
  let Ha := fresh "Ha" in
  apply bind_Ok in H; destruct H as (a & Ha & H).

Ltac inv_ok :=
  repeat match goal with
  | H : Ok _ = Ok _ |- _ => inversion H; subst; clear H
  | H : Raise _ = Ok _ |- _ => discriminate H
  end.

Lemma mapM_Ok_In {A B : Type} (f : A -> result B) l l' :
  mapM f l = Ok l' ->
  forall b, In b l' -> exists a, In a l /\ f a = Ok b.
Proof.
  revert l'; induction l as [|a0 l IH]; simpl; intros l' H b Hb.
  - inv_ok. destruct Hb.
  - inv_bind H. inv_bind H. inv_ok.
    destruct Hb as [<- | Hb].
    + eauto.
    + destruct (IH _ Ha0 _ Hb) as (a' & Hin & Hf). eauto.
Qed.

Lemma mapM_total {A B : Type} (f : A -> result B) (g : A -> B) l :
  (forall a, In a l -> f a = Ok (g a)) -> mapM f l = Ok (map g l).
Proof.
  induction l as [|a l IH]; simpl; intros H; [reflexivity|].
  rewrite (H a) by auto. simpl. rewrite IH by auto. reflexivity.
Qed.

(** ** Lists *)

Lemma get_item_Ok {A : Type} (i : nat) (l : list A) a :
  get_item i l = Ok a <-> nth_error l i = Some a.
Proof.
  unfold get_item. destruct (nth_error l i); split; intros H;
    inversion H; subst; reflexivity.
Qed.

Lemma get_item_In {A : Type} (i : nat) (l : list A) a :
  get_item i l = Ok a -> In a l.
Proof. rewrite get_item_Ok. apply nth_error_In. Qed.

Lemma set_item_length {A : Type} (i : nat) (a : A) l l' :
  set_item i a l = Ok l' -> length l' = length l.
Proof.
  revert i l'; induction l as [|h t IH]; intros [|i] l' H; simpl in *;
    try discriminate.
  - inv_ok. reflexivity.
  - inv_bind H. inv_ok. simpl. f_equal. eauto.
Qed.

Lemma set_item_same {A : Type} (i : nat) (a : A) l l' :
  set_item i a l = Ok l' -> nth_error l' i = Some a.
Proof.
  revert i l'; induction l as [|h t IH]; intros [|i] l' H; simpl in *;
    try discriminate.
  - inv_ok. reflexivity.
  - inv_bind H. inv_ok. simpl. eauto.
Qed.

Lemma set_item_other {A : Type} (i j : nat) (a : A) l l' :
  set_item i a l = Ok l' -> i <> j -> nth_error l' j = nth_error l j.
Proof.
  revert i j l'; induction l as [|h t IH]; intros [|i] [|j] l' H Hij;
    simpl in *; try discriminate; try congruence.
  - inv_ok. reflexivity.
  - inv_bind H. inv_ok. reflexivity.
  - inv_bind H. inv_ok. simpl. eauto.
Qed.

Lemma slice_to_nonneg {A : Type} (k : Z) (l : list A) :
  0 <= k -> slice_to k l = firstn (Z.to_nat k) l.
Proof. intros H. unfold slice_to. destruct (0 <=? k) eqn:E; [reflexivity|lia]. Qed.

Lemma slice_to_prefix {A : Type} (k : Z) (l : list A) :
  exists n, slice_to k l = firstn n l.
Proof. unfold slice_to. destruct (0 <=? k); eauto. Qed.

Lemma slice_to_length {A : Type} (k : Z) (l : list A) :
  0 <= k -> Z.of_nat (length (slice_to k l)) = Z.min k (Z.of_nat (length l)).
Proof.
  intros H. rewrite slice_to_nonneg by assumption.
  rewrite length_firstn. lia.
Qed.

Lemma py_min_In (l : list float) m : py_min l = Ok m -> In m l.
Proof.
  destruct l as [|a t]; simpl; intros H; inv_ok.
  revert a. induction t as [|b t IH]; intros a; simpl.
  - auto.
  - destruct (IH (if ltb b a then b else a)) as [E|E].
    + rewrite <- E. destruct (ltb b a); auto.
    + auto.
Qed.

(** ** Floats: the order that [<] decides *)

Lemma lex_refl e m : lex e m e m = Eq.
Proof.
  unfold lex. rewrite Z.compare_refl.
  change (Pos.compare_cont Eq m m) with (Pos.compare m m).
  apply Pos.compare_refl.
Qed.

Lemma lex_antisym e1 m1 e2 m2 : lex e2 m2 e1 m1 = CompOpp (lex e1 m1 e2 m2).
Proof.
  unfold lex. rewrite (Z.compare_antisym e1 e2).
  destruct (e1 ?= e2); simpl; try reflexivity.
  change (Pos.compare_cont Eq m2 m1) with (Pos.compare m2 m1).
  change (Pos.compare_cont Eq m1 m2) with (Pos.compare m1 m2).
  apply Pos.compare_antisym.
Qed.

Lemma lex_Lt_trans e1 m1 e2 m2 e3 m3 :
  lex e1 m1 e2 m2 = Lt -> lex e2 m2 e3 m3 = Lt -> lex e1 m1 e3 m3 = Lt.
Proof.
  unfold lex.
  change (Pos.compare_cont Eq m1 m2) with (Pos.compare m1 m2).
  change (Pos.compare_cont Eq m2 m3) with (Pos.compare m2 m3).
  change (Pos.compare_cont Eq m1 m3) with (Pos.compare m1 m3).
  destruct (Z.compare_spec e1 e2), (Z.compare_spec e2 e3);
    try discriminate; intros H12 H23;
    destruct (Z.compare_spec e1 e3); try lia; try reflexivity.
  rewrite Pos.compare_lt_iff in *. eapply Pos.lt_trans; eassumption.
Qed.

Lemma lex_Gt_trans e1 m1 e2 m2 e3 m3 :
  lex e1 m1 e2 m2 = Gt -> lex e2 m2 e3 m3 = Gt -> lex e1 m1 e3 m3 = Gt.
Proof.
  intros H12 H23.
  rewrite lex_antisym in H12, H23. rewrite lex_antisym.
  destruct (lex e2 m2 e1 m1) eqn:E21; try discriminate.
  destruct (lex e3 m3 e2 m2) eqn:E32; try discriminate.
  rewrite (lex_Lt_trans _ _ _ _ _ _ E32 E21). reflexivity.
Qed.

Lemma SFcompare_finite s1 m1 e1 s2 m2 e2 :
  SFcompare (S754_finite s1 m1 e1) (S754_finite s2 m2 e2) =
  Some match s1, s2 with
       | true, false => Lt
       | false, true => Gt
       | false, false => lex e1 m1 e2 m2
       | true, true => CompOpp (lex e1 m1 e2 m2)
       end.
Proof.
  unfold lex. simpl. destruct s1, s2; try reflexivity.
  destruct (e1 ?= e2); reflexivity.
Qed.

Lemma SFcompare_antisym a b :
  SFcompare b a = option_map CompOpp (SFcompare a b).
Proof.
  destruct a as [sa|sa| |sa ma ea], b as [sb|sb| |sb mb eb];
    try reflexivity;
    try (destruct sa; reflexivity);
    try (destruct sb; reflexivity);
    try (destruct sa, sb; reflexivity).
  rewrite !SFcompare_finite. simpl.
  destruct sa, sb; simpl; try reflexivity.
  - rewrite lex_antisym. reflexivity.
  - rewrite lex_antisym. reflexivity.
Qed.

Lemma ltb_irrefl a : ltb a a = false.
Proof.
  unfold ltb, SFltb.
  destruct a as [s|s| |s m e]; try reflexivity.
  - destruct s; reflexivity.
  - rewrite SFcompare_finite. destruct s; rewrite lex_refl; reflexivity.
Qed.

Lemma ltb_trans a b c : ltb a b = true -> ltb b c = true -> ltb a c = true.
Proof.
  unfold ltb, SFltb.
  destruct a as [sa|sa| |sa ma ea], b as [sb|sb| |sb mb eb],
           c as [sc|sc| |sc mc ec];
    rewrite ?SFcompare_finite;
    try (simpl; discriminate);
    try (destruct sa; simpl; discriminate);
    try (destruct sb; simpl; discriminate);
    try (destruct sa, sb; simpl; discriminate);
    try (destruct sa, sc; simpl; (discriminate || reflexivity));
    try (destruct sb, sc; simpl; (discriminate || reflexivity));
    try (destruct sa, sb, sc; simpl; (discriminate || reflexivity)).
  destruct sa, sb, sc; simpl; try discriminate; try reflexivity.
  - destruct (lex ea ma eb mb) eqn:E1; try discriminate.
    destruct (lex eb mb ec mc) eqn:E2; try discriminate.
    rewrite (lex_Gt_trans _ _ _ _ _ _ E1 E2). reflexivity.
  - destruct (lex ea ma eb mb) eqn:E1; try discriminate.
    destruct (lex eb mb ec mc) eqn:E2; try discriminate.
    rewrite (lex_Lt_trans _ _ _ _ _ _ E1 E2). reflexivity.
Qed.

Lemma not_lt_le a b :
  is_nan a = false -> is_nan b = false -> ltb a b = false -> leb b a = true.
Proof.
  unfold ltb, leb, SFltb, SFleb. intros Ha Hb.
  rewrite (SFcompare_antisym a b).
  destruct (SFcompare a b) as [[| |]|] eqn:E; simpl;
    try reflexivity; try discriminate.
  destruct a, b; simpl in *; try discriminate;
    repeat match goal with s : bool |- _ => destruct s end; discriminate.
Qed.

Lemma not_worse_refl b : not_worse b b.
Proof. left; reflexivity. Qed.

Lemma not_worse_trans a b c : not_worse a b -> not_worse b c -> not_worse a c.
Proof.
  intros [->|H1] [->|H2]; unfold not_worse; auto.
  right. eapply ltb_trans; eassumption.
Qed.

(** ** The methods, one by one *)

Section Methods.

Variable RNG : Type.
Variable draw : RNG -> float -> float -> float * RNG.
Variable norm_fit : list float -> result (float * float).
Variable argsort : list float -> list nat.


(** *** Sampling *)

Lemma sample_rows_length m g params :
  length (fst (sample_rows draw m g params)) = m.
Proof.
  revert g; induction m as [|m IH]; intros g; simpl; [reflexivity|].
  destruct (sample_row draw g params) as [r g1].
  specialize (IH g1). destruct (sample_rows draw m g1 params) as [rs g2].
  simpl in *. congruence.
Qed.

Lemma normal_rows g loc scale m n rows g' :
  normal draw g loc scale (m, n) = Ok (rows, g') ->
  0 <= m /\ Z.of_nat (length rows) = m.
Proof.
  unfold normal.
  destruct (existsb sign_bit scale); [discriminate|].
  destruct ((m <? 0) || (n <? 0)) eqn:E; [discriminate|].
  apply orb_false_elim in E. destruct E as [Em _].
  apply Z.ltb_ge in Em.
  intros H. inv_bind H. inv_bind H. inv_ok.
  pose proof (sample_rows_length (Z.to_nat m) g (combine a a0)) as L.
  rewrite H1 in L. simpl in L. split; [assumption|]. lia.
Qed.

(** *** [_new_generation] *)

Lemma new_generation_inv s g s' g' :
  _new_generation draw s g = Ok (s', g') ->
  exists fresh k,
    normal draw g (v_mu (vector s)) (v_std (vector s))
           (size_gen s, n_variables s) = Ok (fresh, g') /\
    elite_count s = Ok k /\
    s' = with_generation (slice_to k (generation s) ++ fresh) s.
Proof.
  unfold _new_generation. intros H.
  inv_bind H. destruct a as [fresh g1].
  inv_bind H. inv_bind H. inv_ok.
  unfold vstack in Ha1.
  destruct (same_width _); inv_ok.
  exists fresh, a. auto.
Qed.

Lemma new_generation_settings s g s' g' :
  _new_generation draw s g = Ok (s', g') ->
  settings s' = settings s /\ vector s' = vector s /\
  best_mae_global s' = best_mae_global s /\
  best_ind_global s' = best_ind_global s /\
  history s' = history s /\ evaluations s' = evaluations s.
Proof.
  intros H. apply new_generation_inv in H.
  destruct H as (fresh & k & _ & _ & ->). repeat split.
Qed.

(** *** [_check_generation] *)

Lemma check_generation_inv f s s' :
  _check_generation f s = Ok s' ->
  generation s <> [] /\ s' = with_evaluations (map f (generation s)) s.
Proof.
  unfold _check_generation. destruct (generation s) eqn:E; intros H; inv_ok.
  split; [discriminate|]. reflexivity.
Qed.

(** *** [_truncation] *)

Lemma truncation_inv s s' :
  _truncation argsort s = Ok s' ->
  exists gen ev,
    take (generation s) (best_indices argsort s) = Ok gen /\
    take (evaluations s) (best_indices argsort s) = Ok ev /\
    s' = with_evaluations ev (with_generation gen s).
Proof.
  unfold _truncation. intros H.
  inv_bind H. inv_bind H. inv_ok. eauto.
Qed.

Lemma take_In {A : Type} (l : list A) idx l' :
  take l idx = Ok l' -> forall a, In a l' -> In a l.
Proof.
  intros H a Ha. destruct (mapM_Ok_In _ _ _ H _ Ha) as (i & _ & Hi).
  eapply get_item_In; eassumption.
Qed.

(** *** [_update_vector] *)

Lemma update_vector_inv s s' :
  _update_vector norm_fit s = Ok s' ->
  exists v,
    update_dimensions norm_fit (generation s) (vector s)
                      (seq 0 (Z.to_nat (n_variables s))) = Ok v /\
    s' = with_vector v s.
Proof.
  unfold _update_vector. intros H. inv_bind H. inv_ok. eauto.
Qed.

Lemma update_dimension_inv gen v i v' :
  update_dimension norm_fit gen v i = Ok v' ->
  exists col m sd,
    column i gen = Ok col /\ norm_fit col = Ok (m, sd) /\
    nth_error (v_mu v') i = Some m /\
    nth_error (v_std v') i = Some (clamp sd) /\
    (forall j, j <> i -> nth_error (v_mu v') j = nth_error (v_mu v) j) /\
    (forall j, j <> i -> nth_error (v_std v') j = nth_error (v_std v) j) /\
    v_min v' = v_min v /\ v_max v' = v_max v.
Proof.
  unfold update_dimension. intros H.
  inv_bind H. rename a into col. inv_bind H. destruct a as [m sd].
  inv_bind H. rename a into mu1. inv_bind H. rename a into std1.
  inv_bind H. rename a into cur. inv_bind H. inv_ok.
  exists col, m, sd. simpl.
  apply get_item_Ok in Ha3.
  rewrite (set_item_same _ _ _ _ Ha2) in Ha3. inversion Ha3; subst cur.
  unfold clamp.
  repeat split; auto.
  - eapply set_item_same; eassumption.
  - destruct (ltb sd STD_BOUND).
    + eapply set_item_same; eassumption.
    + inv_ok. eapply set_item_same; eassumption.
  - intros j Hj. eapply set_item_other; eauto.
  - intros j Hj. destruct (ltb sd STD_BOUND).
    + rewrite (set_item_other i j _ _ _ Ha4) by auto.
      eapply set_item_other; eauto.
    + inv_ok. eapply set_item_other; eauto.
Qed.

End Methods.

(** ** One iteration of the loop *)

Section Loop.

Variable RNG : Type.
Variable draw : RNG -> float -> float -> float * RNG.
Variable norm_fit : list float -> result (float * float).
Variable argsort : list float -> list nat.

Lemma iteration_spec f c c' ctl :
  iteration draw norm_fit argsort f c = Ok (c', ctl) ->
  iteration_post f c c' ctl.
Proof.
  unfold iteration. intros H.
  inv_bind H. rename a into s1. inv_bind H. rename a into s2.
  inv_bind H. rename a into s3. inv_bind H. rename a into local.
  inv_bind H. rename a into i. inv_bind H. rename a into ind.
  apply check_generation_inv in Ha. destruct Ha as (_ & ->).
  apply truncation_inv in Ha0. destruct Ha0 as (gen & ev & _ & Hev & ->).
  apply update_vector_inv in Ha1. destruct Ha1 as (v & _ & ->).
  simpl in *.
  assert (Hloc : exists p, In p (generation (self c)) /\ local = f p).
  { apply py_min_In in Ha2.
    apply (take_In _ _ _ Hev) in Ha2.
    apply in_map_iff in Ha2. destruct Ha2 as (p & <- & Hp). eauto. }
  unfold iteration_post.
  destruct (ltb local (best_mae_global (self c))) eqn:Elt.
  - inv_bind H. destruct a as [s6 g'].
    destruct (new_generation_settings _ _ _ _ _ _ Ha) as
      (Hs & _ & Hb & Hi & Hh & _).
    inv_ok. simpl in *. split; [assumption|].
    exists local. rewrite Elt. rewrite Hh, Hb, Hi. eauto 10.
  - destruct (int_eqb (not_better c + 1) (dead_iter (self c))) eqn:Eeq.
    + inv_ok. simpl. split; [reflexivity|].
      exists local. rewrite Elt. repeat split; auto.
    + inv_bind H. destruct a as [s6 g'].
      destruct (new_generation_settings _ _ _ _ _ _ Ha) as
        (Hs & _ & Hb & Hi & Hh & _).
      inv_ok. simpl in *. split; [assumption|].
      exists local. rewrite Elt. rewrite Hh, Hb, Hi.
      repeat split; auto; discriminate.
Qed.

(** *** The loop *)

Lemma for_range_settings f n c c' k :
  for_range draw norm_fit argsort f n c = Ok (c', k) ->
  settings (self c') = settings (self c).
Proof.
  revert c c' k; induction n as [|n IH]; simpl; intros c c' k H.
  - inv_ok. reflexivity.
  - inv_bind H. destruct a as [c1 ctl].
    apply iteration_spec in Ha. destruct Ha as (Hs & _).
    destruct ctl.
    + inv_bind H. destruct a as [c2 k2]. inv_ok.
      rewrite (IH _ _ _ Ha). assumption.
    + inv_ok. assumption.
Qed.

(** The loop appends one history entry per executed iteration and runs
    at most [n] of them. *)
Lemma for_range_history f n c c' k :
  for_range draw norm_fit argsort f n c = Ok (c', k) ->
  (k <= n)%nat /\
  exists locals,
    history (self c') = history (self c) ++ locals /\ length locals = k.
Proof.
  revert c c' k; induction n as [|n IH]; simpl; intros c c' k H.
  - inv_ok. split; [lia|]. exists []. rewrite app_nil_r. auto.
  - inv_bind H. destruct a as [c1 ctl].
    apply iteration_spec in Ha. destruct Ha as (_ & local & Hh & _).
    destruct ctl.
    + inv_bind H. destruct a as [c2 k2]. inv_ok.
      destruct (IH _ _ _ Ha) as (Hk & locals & Hh2 & Hl).
      split; [lia|]. exists (local :: locals).
      rewrite Hh2, Hh, <- app_assoc. simpl. auto.
    + inv_ok. split; [lia|]. exists [local]. auto.
Qed.

(** The best-ever fitness never moves up along the loop. *)
Lemma for_range_not_worse f n c c' k :
  for_range draw norm_fit argsort f n c = Ok (c', k) ->
  not_worse (best_mae_global (self c')) (best_mae_global (self c)).
Proof.
  revert c c' k; induction n as [|n IH]; simpl; intros c c' k H.
  - inv_ok. apply not_worse_refl.
  - inv_bind H. destruct a as [c1 ctl].
    apply iteration_spec in Ha. destruct Ha as (_ & local & _ & _ & Hb).
    assert (H1 : not_worse (best_mae_global (self c1))
                           (best_mae_global (self c))).
    { destruct (ltb local (best_mae_global (self c))) eqn:E.
      - destruct Hb as (-> & _). right. assumption.
      - destruct Hb as (-> & _). left. reflexivity. }
    destruct ctl.
    + inv_bind H. destruct a as [c2 k2]. inv_ok.
      eapply not_worse_trans; [eapply IH; eassumption | assumption].
    + inv_ok. assumption.
Qed.

(** While no iteration's best value is below the best-ever fitness the
    loop started with, the best-ever record stays as it was. *)
Lemma for_range_no_improvement f n c c' k :
  for_range draw norm_fit argsort f n c = Ok (c', k) ->
  exists locals,
    history (self c') = history (self c) ++ locals /\
    (Forall (fun v => ltb v (best_mae_global (self c)) = false) locals ->
     best_mae_global (self c') = best_mae_global (self c) /\
     best_ind_global (self c') = best_ind_global (self c)).
Proof.
  revert c c' k; induction n as [|n IH]; simpl; intros c c' k H.
  - inv_ok. exists []. rewrite app_nil_r. auto.
  - inv_bind H. destruct a as [c1 ctl].
    apply iteration_spec in Ha. destruct Ha as (_ & local & Hh & _ & Hb).
    destruct ctl.
    + inv_bind H. destruct a as [c2 k2]. inv_ok.
      destruct (IH _ _ _ Ha) as (locals & Hh2 & Hkeep).
      exists (local :: locals). split.
      * rewrite Hh2, Hh, <- app_assoc. reflexivity.
      * intros Hall. inversion Hall as [|? ? Hl Hrest]; subst.
        rewrite Hl in Hb. destruct Hb as (Eb & Ei & _).
        rewrite Eb in Hkeep. destruct (Hkeep Hrest) as (-> & ->). auto.
    + inv_ok. exists [local]. split; [assumption|].
      intros Hall. inversion Hall as [|? ? Hl Hrest]; subst.
      rewrite Hl in Hb. destruct Hb as (Eb & Ei & _). auto.
Qed.

(** A stagnation threshold that no counter value equals never ends the
    loop: all [n] iterations run. *)
Lemma for_range_no_break f n c c' k :
  for_range draw norm_fit argsort f n c = Ok (c', k) ->
  integer_value (dead_iter (self c)) = None ->
  k = n.
Proof.
  revert c c' k; induction n as [|n IH]; simpl; intros c c' k H Hd.
  - inv_ok. reflexivity.
  - inv_bind H. destruct a as [c1 ctl].
    apply iteration_spec in Ha. destruct Ha as (Hs & local & _ & _ & Hb).
    assert (Ed : dead_iter (self c1) = dead_iter (self c)).
    { unfold settings in Hs. congruence. }
    destruct ctl.
    + inv_bind H. destruct a as [c2 k2]. inv_ok.
      f_equal. eapply IH; [eassumption|]. rewrite Ed. assumption.
    + exfalso.
      destruct (ltb local (best_mae_global (self c))).
      * destruct Hb as (_ & _ & _ & Hc). discriminate.
      * destruct Hb as (_ & _ & _ & Hc).
        assert (E : int_eqb (not_better c + 1) (dead_iter (self c)) = true)
          by (apply Hc; reflexivity).
        unfold int_eqb in E. rewrite Hd in E. discriminate.
Qed.

(** A loop that stopped before its bound stopped on the stagnation test:
    the counter then equals [dead_iter]. *)
Lemma for_range_early f n c c' k :
  for_range draw norm_fit argsort f n c = Ok (c', k) ->
  (k < n)%nat ->
  int_eqb (not_better c') (dead_iter (self c')) = true.
Proof.
  revert c c' k; induction n as [|n IH]; simpl; intros c c' k H Hk.
  - lia.
  - inv_bind H. destruct a as [c1 ctl].
    apply iteration_spec in Ha. destruct Ha as (Hs & local & _ & _ & Hb).
    assert (Ed : dead_iter (self c1) = dead_iter (self c)).
    { unfold settings in Hs. congruence. }
    destruct ctl.
    + inv_bind H. destruct a as [c2 k2]. inv_ok.
      eapply IH; [eassumption|lia].
    + inv_ok.
      destruct (ltb local (best_mae_global (self c))).
      * destruct Hb as (_ & _ & _ & Hc). discriminate.
      * destruct Hb as (_ & _ & -> & Hc). rewrite Ed.
        apply Hc. reflexivity.
Qed.

(** *** [minimize] *)

Lemma minimize_inv f s g r s' g' :
  minimize draw norm_fit argsort f s g = Ok (r, s', g') ->
  exists c k,
    for_range draw norm_fit argsort f (Z.to_nat (max_iter s))
              (mk_frame (with_history [] s) g 0) = Ok (c, k) /\
    s' = self c /\ g' = rng c /\
    r = mkResult (best_ind_global s') (best_mae_global s')
                 (Z.of_nat (length (history s')) * size_gen s').
Proof.
  unfold minimize. intros H. inv_bind H. destruct a as [c k].
  inv_ok. exists c, k. auto.
Qed.

End Loop.

(** * The claims *)

(** ** C1: construction with an empty elite set *)

Lemma existsb_repeat_false {A : Type} (p : A -> bool) (a : A) (n : nat) :
  p a = false -> existsb p (repeat a n) = false.
Proof. intros H. induction n; simpl; [reflexivity|]. rewrite H. assumption. Qed.

Lemma broadcast_repeat (n : Z) (a : float) :
  0 <= n -> broadcast n (repeat a (Z.to_nat n)) = Ok (repeat a (Z.to_nat n)).
Proof.
  intros H. unfold broadcast. rewrite repeat_length, Z2Nat.id by assumption.
  rewrite Z.eqb_refl. reflexivity.
Qed.

(** C1, counterexample: with [size_gen = 1] and [alpha = 0.1] the
    constructor raises nothing; it returns an instance whose
    [truncation_length] is 0. *)
Lemma C1_counterexample :
  match reference_init 10 1 1 (literal 1 1) with
  | Ok (s, _) => truncation_length s = 0 /\ size_gen s = 1
  | Raise _ => False
  end.
Proof. vm_compute. split; reflexivity. Qed.

(** C1, as the code has it: the constructor performs no check of
    [int(size_gen * alpha)].  For non-negative [size_gen] and [n_variables]
    (and a [maxiter / 5] in the range of a float) with
    [int(size_gen * alpha) == 0], construction succeeds and the instance it
    returns has [truncation_length] equal to 0 and a first population of
    [size_gen] individuals. *)
Theorem C1_construction_unchecked
  (RNG : Type) (draw : RNG -> float -> float -> float * RNG) (g : RNG)
  (maxiter size_gen n_variables : Z) (alpha : float) (disp : bool)
  (dead prod : float) :
  0 <= n_variables ->
  0 <= size_gen ->
  int_truediv maxiter 5 = Ok dead ->
  int_mul size_gen alpha = Ok prod ->
  to_int prod = Ok 0 ->
  exists s g',
    __init__ draw g maxiter size_gen n_variables alpha disp = Ok (s, g') /\
    truncation_length s = 0 /\
    Z.of_nat (length (generation s)) = size_gen.
Proof.
  intros Hn Hs Hdead Hprod Hint.
  unfold __init__, _initialization.
  destruct (n_variables <? 0) eqn:En; [apply Z.ltb_lt in En; lia|].
  cbn [bind]. rewrite Hdead. cbn [bind]. rewrite Hprod. cbn [bind].
  rewrite Hint. cbn [bind v_mu v_std].
  destruct (normal draw g (repeat np_pi (Z.to_nat n_variables))
                   (repeat (literal 5 1) (Z.to_nat n_variables))
                   (size_gen, n_variables)) as [[gen g']|e] eqn:E.
  - cbn [bind]. eexists _, _. split; [reflexivity|]. simpl.
    split; [reflexivity|].
    apply normal_rows in E. tauto.
  - exfalso. unfold normal in E.
    rewrite existsb_repeat_false in E by reflexivity.
    destruct (size_gen <? 0) eqn:E1; [apply Z.ltb_lt in E1; lia|].
    rewrite En in E. cbn [orb] in E.
    rewrite !broadcast_repeat in E by assumption.
    cbn [bind] in E. discriminate.
Qed.

(** C1, witness: [size_gen = 1], [alpha = 0.1]. *)
Lemma C1_construction_unchecked_witness :
  exists s g',
    __init__ Instances.draw 0%nat 10 1 1 (literal 1 1) false = Ok (s, g') /\
    truncation_length s = 0 /\
    Z.of_nat (length (generation s)) = 1.
Proof.
  apply (C1_construction_unchecked nat Instances.draw 0%nat 10 1 1
           (literal 1 1) false
           (div (of_small_int 10) (of_small_int 5))
           (mul (of_small_int 1) (literal 1 1)));
    [lia | lia | reflexivity | reflexivity | reflexivity].
Defined.

(** With an empty elite set the failure comes later: the first iteration
    of [minimize] raises (the builtin [min] meets an empty sequence, unless
    an earlier step of the iteration raised already). *)
Lemma minimize_empty_elite
  (RNG : Type) (draw : RNG -> float -> float -> float * RNG)
  (norm_fit : list float -> result (float * float))
  (argsort : list float -> list nat) (f : objective) (s : UMDA) (g : RNG) :
  truncation_length s = 0 ->
  0 < max_iter s ->
  exists e, minimize draw norm_fit argsort f s g = Raise e.
Proof.
  intros Ht Hm. unfold minimize.
  change (max_iter (with_history [] s)) with (max_iter s).
  destruct (Z.to_nat (max_iter s)) as [|n] eqn:En; [lia|].
  cbn [for_range]. unfold iteration. cbn [self].
  destruct (_check_generation f (with_history [] s)) as [s1|e] eqn:E1;
    [|eexists; reflexivity].
  cbn [bind].
  apply check_generation_inv in E1. destruct E1 as (_ & ->).
  unfold _truncation, best_indices. cbn [truncation_length with_evaluations
    with_history evaluations generation].
  rewrite Ht. unfold slice_to. cbn [Z.leb Z.compare Z.to_nat firstn].
  cbn [take mapM bind].
  match goal with
  | |- context [_update_vector norm_fit ?x] =>
      destruct (_update_vector norm_fit x) as [s3|e] eqn:E3
  end; [|eexists; reflexivity].
  apply update_vector_inv in E3. destruct E3 as (v & _ & ->).
  cbn. eexists; reflexivity.
Qed.

(** ** C2: the stagnation counter and early termination *)

(** For every [max_iter] up to 2000 the float [max_iter / 5] has an integer
    value exactly when 5 divides [max_iter]. *)
Lemma dead_iter_integer_value (m : nat) :
  (m <= 2000)%nat ->
  exists d,
    int_truediv (Z.of_nat m) 5 = Ok d /\
    integer_value d =
      if Z.of_nat m mod 5 =? 0 then Some (Z.of_nat m / 5) else None.
Proof.
  intros Hm.
  assert (Hall : forallb
            (fun i =>
               match int_truediv (Z.of_nat i) 5 with
               | Ok d =>
                   match integer_value d with
                   | Some v => (Z.of_nat i mod 5 =? 0) && (v =? Z.of_nat i / 5)
                   | None => negb (Z.of_nat i mod 5 =? 0)
                   end
               | Raise _ => false
               end) (seq 0 2001) = true) by (vm_compute; reflexivity).
  rewrite forallb_forall in Hall.
  assert (Hin : In m (seq 0 2001)) by (apply in_seq; lia).
  specialize (Hall m Hin).
  destruct (int_truediv (Z.of_nat m) 5) as [d|]; [|discriminate].
  exists d. split; [reflexivity|].
  destruct (integer_value d) as [v|].
  - apply andb_prop in Hall. destruct Hall as (-> & Hv).
    apply Z.eqb_eq in Hv. congruence.
  - destruct (Z.of_nat m mod 5 =? 0); [discriminate|reflexivity].
Qed.

(** C2, counterexample: [max_iter = 7] gives [dead_iter = 1.4], whose
    floor is 1.  With a constant objective the counter is 1 after the
    second iteration, yet the loop runs all 7 iterations and ends with the
    counter at 6. *)
Lemma C2_counterexample :
  match reference_init 7 4 1 (literal 5 1) with
  | Ok (s, g) =>
      match reference_loop (Instances.constant (of_small_int 0))
                           (Z.to_nat (max_iter s))
                           (mk_frame (with_history [] s) g 0) with
      | Ok (c, k) =>
          dead_iter s = literal 14 1 /\ to_int (dead_iter s) = Ok 1 /\
          k = 7%nat /\ not_better c = 6
      | Raise _ => False
      end
  | Raise _ => False
  end.
Proof. vm_compute. repeat split; reflexivity. Qed.

(** C2, as the code has it.  In every iteration the counter is reset to 0
    when the iteration's best fitness is strictly below the best-ever
    value and is incremented by exactly 1 otherwise; the iteration leaves
    the loop exactly when, after such an increment, the counter equals
    [dead_iter] (an exact comparison of an int with a float), and the loop
    then stops at once.  A loop that ran fewer iterations than its bound
    stopped with the counter equal to [dead_iter].  When [dead_iter] has no
    integer value (as [max_iter / 5] for a [max_iter] that 5 does not
    divide) the comparison never holds and all [n] iterations run: there is
    no floor behaviour. *)
Theorem C2_stagnation_counter
  (RNG : Type) (draw : RNG -> float -> float -> float * RNG)
  (norm_fit : list float -> result (float * float))
  (argsort : list float -> list nat) (f : objective)
  (n : nat) (c c' : frame RNG) (k : nat) :
  for_range draw norm_fit argsort f n c = Ok (c', k) ->
  (k <= n)%nat /\
  ((k < n)%nat -> int_eqb (not_better c') (dead_iter (self c)) = true) /\
  (integer_value (dead_iter (self c)) = None -> k = n) /\
  (forall c1 c2 ctl,
      iteration draw norm_fit argsort f c1 = Ok (c2, ctl) ->
      (exists local,
          history (self c2) = history (self c1) ++ [local] /\
          if ltb local (best_mae_global (self c1)) then
            not_better c2 = 0 /\ ctl = Continue
          else
            not_better c2 = not_better c1 + 1 /\
            (ctl = Break <->
             int_eqb (not_better c2) (dead_iter (self c1)) = true)) /\
      (ctl = Break ->
       forall m, for_range draw norm_fit argsort f (S m) c1 = Ok (c2, 1%nat))).
Proof.
  intros H. split; [|split; [|split]].
  - apply for_range_history in H. tauto.
  - intros Hk.
    pose proof (for_range_settings _ _ _ _ _ _ _ _ _ H) as Hs.
    pose proof (for_range_early _ _ _ _ _ _ _ _ _ H Hk) as He.
    unfold settings in Hs.
    replace (dead_iter (self c)) with (dead_iter (self c')) by congruence.
    assumption.
  - intros Hd. eapply for_range_no_break; eassumption.
  - intros c1 c2 ctl Hi. split.
    + apply iteration_spec in Hi. destruct Hi as (_ & local & Hh & _ & Hb).
      exists local. split; [assumption|].
      destruct (ltb local (best_mae_global (self c1))).
      * tauto.
      * destruct Hb as (_ & _ & Hnb & Hc). rewrite Hnb. tauto.
    + intros -> m. cbn [for_range]. rewrite Hi. reflexivity.
Qed.

(** C2, witness: with [max_iter = 7] all 7 iterations run. *)
Lemma C2_stagnation_counter_witness :
  integer_value (dead_iter (fst seven_example)) = None /\
  exists c' k,
    reference_loop (Instances.constant (of_small_int 0)) 7
      (mk_frame (with_history [] (fst seven_example)) (snd seven_example) 0)
      = Ok (c', k) /\
    (k <= 7)%nat /\ k = 7%nat.
Proof.
  split; [reflexivity|].
  assert (H : {x | reference_loop (Instances.constant (of_small_int 0)) 7
                     (mk_frame (with_history [] (fst seven_example))
                               (snd seven_example) 0) = Ok x})
    by (eexists; vm_compute; reflexivity).
  destruct H as [[c' k] H].
  pose proof (C2_stagnation_counter nat Instances.draw Instances.norm_fit
                Instances.argsort (Instances.constant (of_small_int 0)) 7
                (mk_frame (with_history [] (fst seven_example))
                          (snd seven_example) 0) c' k H) as T.
  exists c', k. split; [exact H|]. split; [exact (proj1 T)|].
  apply (proj1 (proj2 (proj2 T))). reflexivity.
Defined.

(** ** C3: the new generation *)

Lemma binary_round_aux_sign sx mx ex lx :
  match binary_round_aux prec emax sx mx ex lx with
  | S754_zero s | S754_infinity s | S754_finite s _ _ => s = sx
  | S754_nan => True
  end.
Proof.
  unfold binary_round_aux.
  destruct (shr_fexp prec emax mx ex lx) as [mrs' e'].
  destruct (shr_fexp prec emax _ e' loc_Exact) as [mrs'' e''].
  destruct (shr_m mrs''); try exact I; try reflexivity.
  destruct (e'' <=? emax - prec); reflexivity.
Qed.

Lemma of_small_int_sign (z : Z) :
  0 <= z -> sign_bit (of_small_int z) = false.
Proof.
  intros Hz. unfold of_small_int, binary_normalize.
  destruct z as [|p|p]; [reflexivity| |lia].
  unfold binary_round.
  destruct (shl_align p 0 _) as [mz ez].
  pose proof (binary_round_aux_sign false (Z.pos mz) ez loc_Exact) as H.
  destruct (binary_round_aux prec emax false (Z.pos mz) ez loc_Exact);
    simpl; auto.
Qed.

Lemma to_int_nonneg (a : float) (k : Z) :
  sign_bit a = false -> to_int a = Ok k -> 0 <= k.
Proof.
  destruct a as [s|s| |s m e]; cbn [to_int sign_bit]; intros Hs H;
    try discriminate.
  - inv_ok. lia.
  - subst s.
    assert (Hc : 0 <= (if 0 <=? e then Z.pos m * 2 ^ e
                       else Z.pos m / 2 ^ (- e))).
    { destruct (0 <=? e) eqn:Ee.
      - apply Z.mul_nonneg_nonneg; [lia|]. apply Z.pow_nonneg. lia.
      - apply Z.leb_gt in Ee. apply Z.div_pos; [lia|].
        apply Z.pow_pos_nonneg; lia. }
    revert Hc H.
    generalize (if 0 <=? e then Z.pos m * 2 ^ e else Z.pos m / 2 ^ (- e)).
    intros z Hz H. injection H as <-. exact Hz.
Qed.

Lemma mul_sign (a b : float) :
  sign_bit a = false -> sign_bit b = false -> sign_bit (mul a b) = false.
Proof.
  destruct a as [sa|sa| |sa ma ea], b as [sb|sb| |sb mb eb]; simpl;
    intros Ha Hb; subst; try reflexivity.
  unfold mul, SFmul. cbn [xorb].
  pose proof (binary_round_aux_sign false (Z.pos (ma * mb)) (ea + eb) loc_Exact)
    as H.
  destruct (binary_round_aux _ _ _ _ _ _); simpl; auto.
Qed.

Lemma elite_count_nonneg (s : UMDA) (k : Z) : elite_count s = Ok k -> 0 <= k.
Proof.
  unfold elite_count. apply to_int_nonneg.
  apply mul_sign; [reflexivity|]. apply of_small_int_sign. lia.
Qed.

(** On populations of up to 2000 individuals the float expression
    [int(ELITE_FACTOR * n)] is the integer [floor(2 n / 5)]. *)
Lemma elite_count_floor (n : nat) :
  (n <= 2000)%nat ->
  to_int (mul ELITE_FACTOR (of_small_int (Z.of_nat n))) = Ok (2 * Z.of_nat n / 5).
Proof.
  intros Hn.
  assert (Hall : forallb
            (fun i => match to_int (mul ELITE_FACTOR (of_small_int (Z.of_nat i))) with
                      | Ok k => k =? 2 * Z.of_nat i / 5
                      | Raise _ => false
                      end) (seq 0 2001) = true) by (vm_compute; reflexivity).
  rewrite forallb_forall in Hall.
  specialize (Hall n). 
  assert (Hin : In n (seq 0 2001)) by (apply in_seq; lia).
  specialize (Hall Hin).
  destruct (to_int (mul ELITE_FACTOR (of_small_int (Z.of_nat n))));
    [|discriminate].
  apply Z.eqb_eq in Hall. congruence.
Qed.




(** ** C4: the evaluation count *)

(** C4.  The evaluation count of the result record is the number of loop
    iterations that ran times [size_gen]; that number is also the length
    of the history, one entry per iteration. *)
Theorem C4_evaluation_count
  (RNG : Type) (draw : RNG -> float -> float -> float * RNG)
  (norm_fit : list float -> result (float * float))
  (argsort : list float -> list nat) (f : objective)
  (s : UMDA) (g : RNG) (r : OptimizerResult) (s' : UMDA) (g' : RNG) :
  minimize draw norm_fit argsort f s g = Ok (r, s', g') ->
  exists c k,
    for_range draw norm_fit argsort f (Z.to_nat (max_iter s))
              (mk_frame (with_history [] s) g 0) = Ok (c, k) /\
    s' = self c /\
    length (history s') = k /\
    size_gen s' = size_gen s /\
    result_nfev r = Z.of_nat k * size_gen s.
Proof.
  intros H. apply minimize_inv in H.
  destruct H as (c & k & Hloop & -> & -> & ->).
  exists c, k.
  pose proof (for_range_settings _ _ _ _ _ _ _ _ _ Hloop) as Hs.
  destruct (for_range_history _ _ _ _ _ _ _ _ _ Hloop) as (_ & locals & Hh & Hl).
  cbn [self history with_history app] in Hh, Hs.
  assert (Esz : size_gen (self c) = size_gen s).
  { unfold settings in Hs. cbn in Hs. congruence. }
  cbn [result_nfev]. rewrite Hh, Hl, Esz. auto.
Qed.

(** C4, witness: a run of the constructed example on a constant
    objective. *)
Lemma C4_evaluation_count_witness :
  exists r s' g',
    reference_minimize (Instances.constant (of_small_int 0))
                       (fst constructed_example) (snd constructed_example)
      = Ok (r, s', g') /\
    exists c k,
      reference_loop (Instances.constant (of_small_int 0))
                     (Z.to_nat (max_iter (fst constructed_example)))
                     (mk_frame (with_history [] (fst constructed_example))
                               (snd constructed_example) 0) = Ok (c, k) /\
      s' = self c /\
      length (history s') = k /\
      size_gen s' = size_gen (fst constructed_example) /\
      result_nfev r = Z.of_nat k * size_gen (fst constructed_example).
Proof.
  assert (H : {x | reference_minimize (Instances.constant (of_small_int 0))
                     (fst constructed_example) (snd constructed_example)
                   = Ok x})
    by (eexists; vm_compute; reflexivity).
  destruct H as [[[r s'] g'] H].
  exists r, s', g'. split; [exact H|].
  exact (C4_evaluation_count nat Instances.draw Instances.norm_fit
           Instances.argsort _ _ _ _ _ _ H).
Defined.

(** ** C5: the floor on the fitted standard deviation *)

Lemma update_dimensions_spec
  (norm_fit : list float -> result (float * float))
  (gen : list (list float)) (range : list nat) :
  forall v v',
    update_dimensions norm_fit gen v range = Ok v' ->
    NoDup range ->
    (forall i, In i range ->
       exists col m sd,
         column i gen = Ok col /\ norm_fit col = Ok (m, sd) /\
         nth_error (v_mu v') i = Some m /\
         nth_error (v_std v') i = Some (clamp sd)) /\
    (forall j, ~ In j range ->
       nth_error (v_mu v') j = nth_error (v_mu v) j /\
       nth_error (v_std v') j = nth_error (v_std v) j).
Proof.
  induction range as [|i t IH]; intros v v' H Hnd.
  - cbn in H. inv_ok. split; [intros i []|auto].
  - cbn [update_dimensions] in H. inv_bind H. rename a into v1.
    inversion Hnd as [|? ? Hni Hnd']; subst.
    destruct (IH _ _ H Hnd') as (Hin & Hout).
    apply update_dimension_inv in Ha.
    destruct Ha as (col & m & sd & Hc & Hf & Hm & Hs & Hmo & Hso & _ & _).
    split.
    + intros j [<-|Hj].
      * exists col, m, sd. destruct (Hout _ Hni) as (E1 & E2).
        rewrite E1, E2. auto.
      * apply Hin. assumption.
    + intros j Hj. cbn [In] in Hj.
      destruct (Hout j) as (E1 & E2); [tauto|].
      rewrite E1, E2. split; [apply Hmo | apply Hso]; intros ->; tauto.
Qed.

Lemma update_dimensions_length
  (norm_fit : list float -> result (float * float))
  (gen : list (list float)) (range : list nat) :
  forall v v',
    update_dimensions norm_fit gen v range = Ok v' ->
    length (v_mu v') = length (v_mu v) /\
    length (v_std v') = length (v_std v).
Proof.
  induction range as [|i t IH]; intros v v' H.
  - cbn in H. inv_ok. auto.
  - cbn [update_dimensions] in H. inv_bind H. rename a into v1.
    destruct (IH _ _ H) as (-> & ->). clear IH H.
    unfold update_dimension in Ha.
    inv_bind Ha. inv_bind Ha. destruct a0 as [m sd].
    inv_bind Ha. rename a0 into mu1. inv_bind Ha. rename a0 into std1.
    inv_bind Ha. inv_bind Ha. rename a1 into std2. inv_ok. cbn [v_mu v_std].
    apply set_item_length in Ha2, Ha3. split; [assumption|].
    destruct (ltb a0 STD_BOUND).
    + apply set_item_length in Ha5. congruence.
    + inv_ok. assumption.
Qed.

Lemma clamp_not_below (sd : float) : ltb (clamp sd) STD_BOUND = false.
Proof.
  unfold clamp. destruct (ltb sd STD_BOUND) eqn:E; [|assumption].
  apply ltb_irrefl.
Qed.

Lemma clamp_at_least (sd : float) :
  is_nan sd = false -> leb STD_BOUND (clamp sd) = true.
Proof.
  intros Hn. unfold clamp. destruct (ltb sd STD_BOUND) eqn:E.
  - reflexivity.
  - apply not_lt_le; [assumption | reflexivity | assumption].
Qed.

(** C5, counterexample: [UMDA(maxiter=10, size_gen=1, n_variables=1,
    alpha=0.1)] has [truncation_length = int(0.1) = 0].  The truncation
    step of the first iteration leaves an empty elite set, the fit of its
    empty column returns NaN, and the re-fit step stores that NaN, since
    [NaN < 0.3] is false: the standard deviation of the model is not at
    least 0.3. *)
Lemma C5_counterexample :
  match
    '(s, g) <- reference_init 10 1 1 (literal 1 1) ;;
    s2 <- reference_truncated Instances.first_coordinate s ;;
    s3 <- _update_vector Instances.norm_fit s2 ;;
    Ok (s, s3)
  with
  | Ok (s, s3) =>
      truncation_length s = 0 /\
      generation s3 = [] /\
      v_std (vector s3) = [nan] /\
      leb STD_BOUND nan = false
  | Raise _ => False
  end.
Proof. vm_compute. repeat split; reflexivity. Qed.

(** C5, as the code has it.  After a re-fit step, in every dimension [i]
    the standard deviation held by the model is the fitted one, [sd],
    unless [sd] is below [STD_BOUND = 0.3], in which case it is exactly
    [STD_BOUND]; so it is never below the bound, it is at least the bound
    whenever the fit returned a number, and it is the NaN of the fit when
    the fit returned NaN.  This holds for every elite set, whatever its
    columns; the row of standard deviations keeps its length, which is
    [n_variables] from the constructor on. *)
Theorem C5_std_floor
  (norm_fit : list float -> result (float * float))
  (s s' : UMDA) (i : nat) :
  _update_vector norm_fit s = Ok s' ->
  (i < Z.to_nat (n_variables s))%nat ->
  exists col m sd,
    column i (generation s) = Ok col /\
    norm_fit col = Ok (m, sd) /\
    nth_error (v_std (vector s')) i =
      Some (if ltb sd STD_BOUND then STD_BOUND else sd) /\
    ltb (if ltb sd STD_BOUND then STD_BOUND else sd) STD_BOUND = false /\
    (is_nan sd = false ->
     leb STD_BOUND (if ltb sd STD_BOUND then STD_BOUND else sd) = true) /\
    length (v_std (vector s')) = length (v_std (vector s)) /\
    (is_nan sd = true -> nth_error (v_std (vector s')) i = Some nan).
Proof.
  intros H Hi. apply update_vector_inv in H. destruct H as (v & Hv & ->).
  pose proof (update_dimensions_length _ _ _ _ _ Hv) as (_ & Hlen).
  apply update_dimensions_spec in Hv; [|apply seq_NoDup].
  destruct Hv as (Hin & _).
  destruct (Hin i) as (col & m & sd & Hc & Hf & _ & Hs).
  { apply in_seq. lia. }
  exists col, m, sd. cbn [vector with_vector].
  repeat split; auto.
  - apply clamp_not_below.
  - apply clamp_at_least.
  - intros Hn. rewrite Hs. destruct sd; try discriminate Hn. reflexivity.
Qed.

(** C5, witness: an elite set whose column is constant is fitted with
    deviation 0 and the model holds 0.3. *)
Lemma C5_std_floor_witness :
  exists s',
    _update_vector Instances.norm_fit degenerate_example = Ok s' /\
    Instances.norm_fit [of_small_int 1; of_small_int 1] =
      Ok (of_small_int 1, of_small_int 0) /\
    nth_error (v_std (vector s')) 0 = Some STD_BOUND /\
    leb STD_BOUND STD_BOUND = true.
Proof.
  assert (H : {x | _update_vector Instances.norm_fit degenerate_example = Ok x})
    by (eexists; vm_compute; reflexivity).
  destruct H as [s' H].
  assert (Hi : (0 < Z.to_nat (n_variables degenerate_example))%nat)
    by (vm_compute; lia).
  destruct (C5_std_floor Instances.norm_fit _ _ 0%nat H Hi)
    as (col & m & sd & Hc & Hf & Hs & _ & Hle & _).
  assert (Ec : col = [of_small_int 1; of_small_int 1]).
  { vm_compute in Hc. injection Hc as <-. reflexivity. }
  subst col.
  assert (Esd : sd = of_small_int 0).
  { vm_compute in Hf. injection Hf as _ <-. reflexivity. }
  subst sd.
  exists s'. split; [exact H|]. split; [vm_compute; reflexivity|].
  split; [exact Hs|]. apply Hle. reflexivity.
Defined.

(** ** C6: the best-ever fitness never rises *)

(** C6.  Along any stretch of the loop the best-ever fitness at the end is
    the one at the start or a strictly smaller value.  In each iteration it
    is replaced, by the iteration's best value, only when that value is
    strictly smaller; otherwise it is left as it was.  The fitness in the
    result record of [minimize] is therefore never above the best-ever
    fitness the call started with. *)
Theorem C6_best_non_increasing
  (RNG : Type) (draw : RNG -> float -> float -> float * RNG)
  (norm_fit : list float -> result (float * float))
  (argsort : list float -> list nat) (f : objective)
  (n : nat) (c c' : frame RNG) (k : nat) :
  for_range draw norm_fit argsort f n c = Ok (c', k) ->
  (best_mae_global (self c') = best_mae_global (self c) \/
   ltb (best_mae_global (self c')) (best_mae_global (self c)) = true) /\
  (forall c1 c2 ctl,
      iteration draw norm_fit argsort f c1 = Ok (c2, ctl) ->
      exists local,
        history (self c2) = history (self c1) ++ [local] /\
        best_mae_global (self c2) =
          (if ltb local (best_mae_global (self c1)) then local
           else best_mae_global (self c1))) /\
  (forall s g r s' g',
      minimize draw norm_fit argsort f s g = Ok (r, s', g') ->
      result_fun r = best_mae_global s \/
      ltb (result_fun r) (best_mae_global s) = true).
Proof.
  intros H. split; [|split].
  - exact (for_range_not_worse _ _ _ _ _ _ _ _ _ H).
  - intros c1 c2 ctl Hi. apply iteration_spec in Hi.
    destruct Hi as (_ & local & Hh & _ & Hb).
    exists local. split; [assumption|].
    destruct (ltb local (best_mae_global (self c1))); tauto.
  - intros s g r s' g' Hm. apply minimize_inv in Hm.
    destruct Hm as (c0 & k0 & Hloop & -> & _ & ->).
    exact (for_range_not_worse _ _ _ _ _ _ _ _ _ Hloop).
Qed.

(** C6, witness: the loop of the constructed example on a constant
    objective. *)
Lemma C6_best_non_increasing_witness :
  exists c' k,
    reference_loop (Instances.constant (of_small_int 0)) 10
      (mk_frame (fst constructed_example) (snd constructed_example) 0)
      = Ok (c', k) /\
    (best_mae_global (self c') = best_mae_global (fst constructed_example) \/
     ltb (best_mae_global (self c'))
         (best_mae_global (fst constructed_example)) = true).
Proof.
  assert (H : {x | reference_loop (Instances.constant (of_small_int 0)) 10
                     (mk_frame (fst constructed_example)
                               (snd constructed_example) 0) = Ok x})
    by (eexists; vm_compute; reflexivity).
  destruct H as [[c' k] H].
  exists c', k. split; [exact H|].
  exact (proj1 (C6_best_non_increasing nat Instances.draw Instances.norm_fit
                  Instances.argsort (Instances.constant (of_small_int 0))
                  10 (mk_frame (fst constructed_example)
                               (snd constructed_example) 0) c' k H)).
Defined.

(** ** C7: truncation *)

Lemma In_firstn {A : Type} (a : A) (n : nat) l : In a (firstn n l) -> In a l.
Proof.
  intros H. rewrite <- (firstn_skipn n l). apply in_or_app. auto.
Qed.

Lemma StronglySorted_firstn {A : Type} (R : A -> A -> Prop) (n : nat) l :
  StronglySorted R l -> StronglySorted R (firstn n l).
Proof.
  revert n; induction l as [|a l IH]; intros [|n] H; simpl;
    try constructor.
  - apply IH. inversion H; assumption.
  - inversion H as [|? ? _ Hall]; subst.
    rewrite Forall_forall in *. intros x Hx. apply Hall.
    eapply In_firstn; eassumption.
Qed.

Lemma StronglySorted_map {A B : Type} (R : B -> B -> Prop) (h : A -> B) l :
  StronglySorted (fun a b => R (h a) (h b)) l -> StronglySorted R (map h l).
Proof.
  induction 1 as [|a l _ IH Hall]; simpl; constructor; [assumption|].
  rewrite Forall_forall in *. intros b Hb.
  apply in_map_iff in Hb. destruct Hb as (x & <- & Hx). auto.
Qed.

Lemma StronglySorted_app_cross {A : Type} (R : A -> A -> Prop) l1 l2 :
  StronglySorted R (l1 ++ l2) ->
  forall a b, In a l1 -> In b l2 -> R a b.
Proof.
  induction l1 as [|x l1 IH]; simpl; intros H a b Ha Hb; [destruct Ha|].
  inversion H as [|? ? Hs Hall]; subst.
  destruct Ha as [<-|Ha].
  - rewrite Forall_forall in Hall. apply Hall. apply in_or_app. auto.
  - eapply IH; eassumption.
Qed.

Lemma take_in_range {A : Type} (d : A) (l : list A) (idx : list nat) :
  (forall i, In i idx -> (i < length l)%nat) ->
  take l idx = Ok (map (fun i => nth i l d) idx).
Proof.
  intros H. unfold take. apply mapM_total.
  intros i Hi. unfold get_item.
  rewrite (nth_error_nth' l d (H i Hi)). reflexivity.
Qed.

Lemma ascending_fromb_sound ev idx :
  ascending_fromb ev idx = true ->
  StronglySorted (fun i j => not_below (nth i ev nan) (nth j ev nan)) idx.
Proof.
  induction idx as [|i t IH]; simpl; intros H; constructor.
  - apply IH. apply andb_prop in H. tauto.
  - apply andb_prop in H. destruct H as (H & _).
    rewrite forallb_forall in H. rewrite Forall_forall. intros j Hj.
    unfold not_below. specialize (H j Hj).
    destruct (ltb (nth j ev nan) (nth i ev nan)); [discriminate|reflexivity].
Qed.

Lemma sortsb_sound ev idx : sortsb ev idx = true -> sorts ev idx.
Proof.
  unfold sortsb. intros H.
  apply andb_prop in H. destruct H as (H & Hasc).
  apply andb_prop in H. destruct H as (Hlen & Hcov).
  apply Nat.eqb_eq in Hlen. split.
  - apply Permutation_sym. apply NoDup_Permutation_bis.
    + apply seq_NoDup.
    + rewrite length_seq. lia.
    + intros i Hi. rewrite forallb_forall in Hcov.
      specialize (Hcov i Hi). apply existsb_exists in Hcov.
      destruct Hcov as (j & Hj & E). apply Nat.eqb_eq in E. subst j.
      assumption.
  - apply ascending_fromb_sound. assumption.
Qed.

(** C7, counterexample: [UMDA(maxiter=10, size_gen=10, n_variables=1,
    alpha=1.0)] has [truncation_length = 10].  After [size_gen] is set to 2
    and one iteration has run, the population has 4 + 2 = 6 individuals,
    and the truncation step of the next iteration keeps 6 individuals, not
    10. *)
Lemma C7_counterexample :
  match
    '(s, g) <- reference_init 10 10 1 (of_small_int 1) ;;
    '(c, _) <- reference_iteration Instances.first_coordinate
                 (mk_frame (set_size_gen 2 s) g 0) ;;
    s2 <- reference_truncated Instances.first_coordinate (self c) ;;
    Ok (self c, s2)
  with
  | Ok (s1, s2) =>
      length (generation s1) = 6%nat /\
      truncation_length s2 = 10 /\
      length (generation s2) = 6%nat /\
      length (evaluations s2) = 6%nat
  | Raise _ => False
  end.
Proof. vm_compute. repeat split; reflexivity. Qed.

(** The order of equal keys is the one [argsort] returns: an index sort
    that meets [sorts] and returns equal keys in reverse index order makes
    the truncation keep the later of two equal individuals. *)
Lemma truncation_ties_follow_argsort :
  let ev := [of_small_int 1; of_small_int 1] in
  let s := with_evaluations ev
             (with_generation [[of_small_int 7]; [of_small_int 8]]
                              (fst constructed_example)) in
  sorts ev (Instances.argsort_reversing ev) /\
  truncation_length s = 2 /\
  exists s', _truncation Instances.argsort_reversing s = Ok s' /\
             generation s' = [[of_small_int 8]; [of_small_int 7]].
Proof.
  cbv zeta. split; [|split; [reflexivity|]].
  - apply sortsb_sound. vm_compute. reflexivity.
  - eexists. split; vm_compute; reflexivity.
Qed.

(** C7, as the code has it.  Given that [argsort] answers with a sorting
    permutation of the positions, a truncation step keeps the individuals
    and the evaluations at the positions
    [kept = argsort(evaluations)[:truncation_length]], in that order in
    both arrays (index-aligned).  The positions are distinct; there are
    [min(truncation_length, len(evaluations))] of them for a non-negative
    [truncation_length]; the kept evaluations are in ascending order; and
    no individual that was dropped has a fitness below that of one that
    was kept. *)
Theorem C7_truncation
  (argsort : list float -> list nat) (s : UMDA) :
  sorts (evaluations s) (argsort (evaluations s)) ->
  length (generation s) = length (evaluations s) ->
  exists s',
    _truncation argsort s = Ok s' /\
    let kept := best_indices argsort s in
    generation s' = map (fun i => nth i (generation s) []) kept /\
    evaluations s' = map (fun i => nth i (evaluations s) nan) kept /\
    NoDup kept /\
    (forall i, In i kept -> (i < length (evaluations s))%nat) /\
    (0 <= truncation_length s ->
     Z.of_nat (length kept) =
       Z.min (truncation_length s) (Z.of_nat (length (evaluations s)))) /\
    StronglySorted not_below (evaluations s') /\
    (forall i j,
        In i kept -> (j < length (evaluations s))%nat -> ~ In j kept ->
        not_below (nth i (evaluations s) nan) (nth j (evaluations s) nan)).
Proof.
  intros [Hperm Hsorted] Hlen.
  set (ev := evaluations s) in *.
  set (idx := argsort ev) in *.
  assert (Hkept : best_indices argsort s = slice_to (truncation_length s) idx)
    by reflexivity.
  destruct (slice_to_prefix (truncation_length s) idx) as (m & Hm).
  rewrite Hm in Hkept.
  assert (Hsplit : idx = firstn m idx ++ skipn m idx)
    by (symmetry; apply firstn_skipn).
  assert (Hrange : forall i, In i idx -> (i < length ev)%nat).
  { intros i Hi. apply (Permutation_in _ Hperm) in Hi.
    apply in_seq in Hi. lia. }
  assert (Hnd : NoDup idx).
  { apply (Permutation_NoDup (Permutation_sym Hperm)). apply seq_NoDup. }
  assert (Hkrange : forall i, In i (firstn m idx) -> (i < length ev)%nat).
  { intros i Hi. apply Hrange. eapply In_firstn; eassumption. }
  exists (with_evaluations (map (fun i => nth i ev nan) (firstn m idx))
            (with_generation (map (fun i => nth i (generation s) [])
                                  (firstn m idx)) s)).
  split.
  - unfold _truncation. rewrite Hkept.
    rewrite (take_in_range [] (generation s) (firstn m idx))
      by (rewrite Hlen; exact Hkrange).
    cbn [bind]. fold ev.
    rewrite (take_in_range nan ev (firstn m idx)) by exact Hkrange.
    reflexivity.
  - cbv zeta. rewrite Hkept. cbn [generation evaluations with_evaluations
                                  with_generation].
    split; [reflexivity|]. split; [reflexivity|].
    split; [|split; [exact Hkrange|split; [|split]]].
    + rewrite Hsplit in Hnd. eapply NoDup_app_remove_r; eassumption.
    + intros Ht. rewrite <- Hm. rewrite slice_to_length by assumption.
      rewrite (Permutation_length Hperm), length_seq. reflexivity.
    + apply StronglySorted_map. apply StronglySorted_firstn. exact Hsorted.
    + intros i j Hi Hj Hnj.
      assert (Hjin : In j idx).
      { apply (Permutation_in _ (Permutation_sym Hperm)).
        apply in_seq. lia. }
      rewrite Hsplit in Hjin. apply in_app_or in Hjin.
      destruct Hjin as [Hjin|Hjin]; [contradiction|].
      rewrite Hsplit in Hsorted.
      exact (StronglySorted_app_cross _ _ _ Hsorted i j Hi Hjin).
Qed.

(** C7, witness: four individuals with fitness [a, b, a, b], [a < b], and
    [truncation_length = 2]. *)
Lemma C7_truncation_witness :
  exists s',
    _truncation Instances.argsort evaluated_example = Ok s' /\
    evaluations s' =
      map (fun i => nth i (evaluations evaluated_example) nan) [0%nat; 2%nat] /\
    StronglySorted not_below (evaluations s').
Proof.
  assert (Hs : sorts (evaluations evaluated_example)
                     (Instances.argsort (evaluations evaluated_example))).
  { apply sortsb_sound. vm_compute. reflexivity. }
  assert (Hl : length (generation evaluated_example) =
               length (evaluations evaluated_example)) by reflexivity.
  destruct (C7_truncation Instances.argsort evaluated_example Hs Hl)
    as (s' & Ht & _ & He & _ & _ & _ & Hsorted & _).
  exists s'. split; [exact Ht|]. split; [exact He|exact Hsorted].
Defined.

(** ** C8: a second call of [minimize] on the same instance *)

(** C8, counterexample: a first run on the objective [x -> x[0]] leaves a
    best-ever fitness below 5.  A second run on the same instance with the
    constant objective 5 returns the record of the first run: its fitness
    is not a value of the second objective, and its point is the first
    run's point.  The model and the population that the second run starts
    from are those the first run left, not the prior and a sample of it. *)
Lemma C8_counterexample :
  match
    '(s, g) <- reference_init 10 4 1 (literal 5 1) ;;
    '(r1, s1, g1) <- reference_minimize Instances.first_coordinate s g ;;
    '(r2, s2, g2) <- reference_minimize (Instances.constant (of_small_int 5))
                       s1 g1 ;;
    Ok (s, r1, s1, r2)
  with
  | Ok (s, r1, s1, r2) =>
      ltb (result_fun r1) (of_small_int 5) = true /\
      result_fun r2 = result_fun r1 /\
      result_x r2 = result_x r1 /\
      v_mu (vector s) = [np_pi] /\
      v_mu (vector s1) <> [np_pi]
  | Raise _ => False
  end.
Proof.
  vm_compute. repeat split; try reflexivity. intros H. discriminate H.
Qed.

(** Every iteration's best value is the objective at some point. *)
Lemma for_range_values
  (RNG : Type) (draw : RNG -> float -> float -> float * RNG)
  (norm_fit : list float -> result (float * float))
  (argsort : list float -> list nat) (f : objective) n :
  forall (c c' : frame RNG) k,
    for_range draw norm_fit argsort f n c = Ok (c', k) ->
    exists locals,
      history (self c') = history (self c) ++ locals /\
      Forall (fun v => exists p, v = f p) locals.
Proof.
  induction n as [|n IH]; simpl; intros c c' k H.
  - inv_ok. exists []. rewrite app_nil_r. auto.
  - inv_bind H. destruct a as [c1 ctl].
    apply iteration_spec in Ha.
    destruct Ha as (_ & local & Hh & (p & _ & ->) & _).
    destruct ctl.
    + inv_bind H. destruct a as [c2 k2]. inv_ok.
      destruct (IH _ _ _ Ha) as (locals & Hh2 & Hall).
      exists (f p :: locals). split.
      * rewrite Hh2, Hh, <- app_assoc. reflexivity.
      * constructor; eauto.
    + inv_ok. exists [f p]. split; [assumption|].
      constructor; eauto.
Qed.

(** C8, as the code has it.  A call of [minimize] resets the history (its
    outcome does not depend on the history the instance holds, and the
    history it leaves has one entry per iteration of this call) and starts
    the stagnation counter at 0.  Nothing else is reset: the best-ever
    record is carried into the call, so the fitness returned is the one
    the instance held or a strictly smaller one, and the record held is
    returned unchanged when no iteration's best value is below it; and the
    first iteration evaluates the population that the instance held. *)
Theorem C8_minimize_resumes
  (RNG : Type) (draw : RNG -> float -> float -> float * RNG)
  (norm_fit : list float -> result (float * float))
  (argsort : list float -> list nat) (f : objective)
  (s : UMDA) (g : RNG) (r : OptimizerResult) (s' : UMDA) (g' : RNG) :
  minimize draw norm_fit argsort f s g = Ok (r, s', g') ->
  (forall h, minimize draw norm_fit argsort f (with_history h s) g =
             minimize draw norm_fit argsort f s g) /\
  (exists c k,
      for_range draw norm_fit argsort f (Z.to_nat (max_iter s))
                (mk_frame (with_history [] s) g 0) = Ok (c, k) /\
      s' = self c /\ length (history s') = k) /\
  (result_fun r = best_mae_global s \/
   ltb (result_fun r) (best_mae_global s) = true) /\
  (Forall (fun v => ltb v (best_mae_global s) = false) (history s') ->
   result_fun r = best_mae_global s /\ result_x r = best_ind_global s) /\
  (0 < max_iter s ->
   exists local rest p,
     history s' = local :: rest /\ In p (generation s) /\ local = f p).
Proof.
  intros H. split; [reflexivity|].
  apply minimize_inv in H. destruct H as (c & k & Hloop & -> & _ & ->).
  cbn [result_fun result_x].
  split; [|split; [|split]].
  - exists c, k. split; [assumption|]. split; [reflexivity|].
    destruct (for_range_history _ _ _ _ _ _ _ _ _ Hloop)
      as (_ & locals & Hh & Hl).
    cbn [self history with_history app] in Hh. rewrite Hh. assumption.
  - exact (for_range_not_worse _ _ _ _ _ _ _ _ _ Hloop).
  - intros Hall.
    destruct (for_range_no_improvement _ _ _ _ _ _ _ _ _ Hloop)
      as (locals & Hh & Hkeep).
    cbn [self history with_history app best_mae_global best_ind_global]
      in Hh, Hkeep.
    rewrite Hh in Hall. exact (Hkeep Hall).
  - intros Hm.
    destruct (Z.to_nat (max_iter s)) as [|n] eqn:En; [lia|].
    cbn [for_range] in Hloop.
    inv_bind Hloop. destruct a as [c1 ctl].
    apply iteration_spec in Ha.
    destruct Ha as (_ & local & Hh & (p & Hp & ->) & _).
    cbn [self history with_history generation app] in Hh, Hp.
    destruct ctl.
    + inv_bind Hloop. destruct a as [c2 k2]. inv_ok.
      destruct (for_range_history _ _ _ _ _ _ _ _ _ Ha)
        as (_ & locals & Hh2 & _).
      exists (f p), locals, p. rewrite Hh2, Hh. auto.
    + inv_ok. exists (f p), [], p. auto.
Qed.

(** C8, witness: a second run, on an instance that has run before. *)
Lemma C8_minimize_resumes_witness :
  exists r2 s2 g2,
    reference_minimize (Instances.constant (of_small_int 5))
      (fst reused_example) (snd reused_example) = Ok (r2, s2, g2) /\
    (result_fun r2 = best_mae_global (fst reused_example) \/
     ltb (result_fun r2) (best_mae_global (fst reused_example)) = true).
Proof.
  assert (H : {x | reference_minimize (Instances.constant (of_small_int 5))
                     (fst reused_example) (snd reused_example) = Ok x})
    by (eexists; vm_compute; reflexivity).
  destruct H as [[[r2 s2] g2] H].
  exists r2, s2, g2. split; [exact H|].
  exact (proj1 (proj2 (proj2
    (C8_minimize_resumes nat Instances.draw Instances.norm_fit
       Instances.argsort (Instances.constant (of_small_int 5))
       (fst reused_example) (snd reused_example) r2 s2 g2 H)))).
Defined.

(** ** C9: the setters leave the derived attributes alone *)

Lemma init_inv
  (RNG : Type) (draw : RNG -> float -> float -> float * RNG) (g : RNG)
  (maxiter sg n : Z) (a : float) (d : bool) (s : UMDA) (g' : RNG) :
  __init__ draw g maxiter sg n a d = Ok (s, g') ->
  exists vec dead prod tl gen,
    _initialization n = Ok vec /\
    int_truediv maxiter 5 = Ok dead /\
    int_mul sg a = Ok prod /\
    to_int prod = Ok tl /\
    normal draw g (v_mu vec) (v_std vec) (sg, n) = Ok (gen, g') /\
    s = mkUMDA d sg maxiter a n vec dead (of_small_int BEST_MAE_INIT) tl gen
               (Scalar BEST_IND_INIT) [] [].
Proof.
  unfold __init__. intros H.
  inv_bind H. rename a0 into vec. inv_bind H. rename a0 into dead.
  inv_bind H. rename a0 into prod. inv_bind H. rename a0 into tl.
  inv_bind H. destruct a0 as [gen g1]. inv_ok.
  exists vec, dead, prod, tl, gen. auto 10.
Qed.



(** ** C10: a run that never gets below the initial best-ever fitness *)

(** The constructor leaves the two placeholders in the best-ever record. *)
Lemma init_best_record
  (RNG : Type) (draw : RNG -> float -> float -> float * RNG) (g : RNG)
  (maxiter sg n : Z) (a : float) (d : bool) (s : UMDA) (g' : RNG) :
  __init__ draw g maxiter sg n a d = Ok (s, g') ->
  best_mae_global s = of_small_int BEST_MAE_INIT /\
  best_ind_global s = Scalar BEST_IND_INIT.
Proof.
  intros H. apply init_inv in H.
  destruct H as (vec & dead & prod & tl & gen & _ & _ & _ & _ & _ & ->).
  split; reflexivity.
Qed.

(** C10, counterexample: a first run on the objective [x -> x[0]] leaves a
    best-ever fitness below 999999999999.  In a second run on the same
    instance, with the constant objective [10^12], no evaluation is below
    999999999999, yet the run returns the fitness and the point of the
    first run, not the two placeholders. *)
Lemma C10_counterexample :
  match
    '(s, g) <- reference_init 10 4 1 (literal 5 1) ;;
    '(r1, s1, g1) <- reference_minimize Instances.first_coordinate s g ;;
    '(r2, s2, g2) <- reference_minimize
                       (Instances.constant (of_small_int (10 ^ 12))) s1 g1 ;;
    Ok (r1, r2, s2)
  with
  | Ok (r1, r2, s2) =>
      history s2 <> [] /\
      forallb (fun v => negb (ltb v (of_small_int BEST_MAE_INIT))) (history s2)
        = true /\
      ltb (result_fun r2) (of_small_int 999999999999) = true /\
      result_fun r2 = result_fun r1 /\
      result_x r2 = result_x r1 /\
      exists p, result_x r2 = Individual p
  | Raise _ => False
  end.
Proof.
  vm_compute. repeat split; try reflexivity.
  - intros H. discriminate H.
  - eexists. reflexivity.
Qed.

(** C10, as the code has it.  On an instance whose best-ever record holds
    the placeholders of the constructor, as a newly constructed one does,
    a run of [minimize] in which no iteration's best value is strictly
    below 999999999999 returns that value as [fun] and the int placeholder
    9999999, not a point, as [x]. *)
Theorem C10_placeholder_result
  (RNG : Type) (draw : RNG -> float -> float -> float * RNG)
  (norm_fit : list float -> result (float * float))
  (argsort : list float -> list nat) (f : objective)
  (s : UMDA) (g : RNG) (r : OptimizerResult) (s' : UMDA) (g' : RNG) :
  best_mae_global s = of_small_int BEST_MAE_INIT ->
  best_ind_global s = Scalar BEST_IND_INIT ->
  minimize draw norm_fit argsort f s g = Ok (r, s', g') ->
  forallb (fun v => negb (ltb v (of_small_int BEST_MAE_INIT))) (history s')
    = true ->
  result_fun r = of_small_int 999999999999 /\
  result_x r = Scalar 9999999.
Proof.
  intros Hb Hi Hm Hall.
  apply minimize_inv in Hm. destruct Hm as (c & k & Hloop & -> & _ & ->).
  destruct (for_range_no_improvement _ _ _ _ _ _ _ _ _ Hloop)
    as (locals & Hh & Hkeep).
  cbn [self history with_history app best_mae_global best_ind_global]
    in Hh, Hkeep.
  rewrite Hh in Hall. rewrite forallb_forall in Hall.
  destruct Hkeep as (E1 & E2).
  { rewrite Forall_forall. intros v Hv. specialize (Hall v Hv).
    rewrite Hb. destruct (ltb v (of_small_int BEST_MAE_INIT));
      [discriminate|reflexivity]. }
  cbn [result_fun result_x]. rewrite E1, E2, Hb, Hi. split; reflexivity.
Qed.

(** C10, witness: the constant objective [10^12] on the constructed
    example. *)
Lemma C10_placeholder_result_witness :
  reference_minimize (Instances.constant (of_small_int (10 ^ 12)))
    (fst constructed_example) (snd constructed_example)
    = Ok stalled_example /\
  result_fun (fst (fst stalled_example)) = of_small_int 999999999999 /\
  result_x (fst (fst stalled_example)) = Scalar 9999999.
Proof.
  assert (H : reference_minimize (Instances.constant (of_small_int (10 ^ 12)))
                (fst constructed_example) (snd constructed_example)
              = Ok (fst (fst stalled_example), snd (fst stalled_example),
                    snd stalled_example))
    by (vm_compute; reflexivity).
  split; [exact H|].
  apply (C10_placeholder_result nat Instances.draw Instances.norm_fit
           Instances.argsort (Instances.constant (of_small_int (10 ^ 12)))
           (fst constructed_example) (snd constructed_example)
           (fst (fst stalled_example)) (snd (fst stalled_example))
           (snd stalled_example));
    [reflexivity | reflexivity | exact H | vm_compute; reflexivity].
Defined.

(** When the objective itself is nowhere below the initial best-ever
    fitness, no iteration's best value is. *)
Lemma objective_never_below
  (RNG : Type) (draw : RNG -> float -> float -> float * RNG)
  (norm_fit : list float -> result (float * float))
  (argsort : list float -> list nat) (f : objective)
  (s : UMDA) (g : RNG) (r : OptimizerResult) (s' : UMDA) (g' : RNG) :
  (forall p, ltb (f p) (of_small_int BEST_MAE_INIT) = false) ->
  minimize draw norm_fit argsort f s g = Ok (r, s', g') ->
  forallb (fun v => negb (ltb v (of_small_int BEST_MAE_INIT))) (history s')
    = true.
Proof.
  intros Hf Hm. apply minimize_inv in Hm.
  destruct Hm as (c & k & Hloop & -> & _ & _).
  destruct (for_range_values _ _ _ _ _ _ _ _ _ Hloop) as (locals & Hh & Hv).
  cbn [self history with_history app] in Hh. rewrite Hh.
  apply forallb_forall. intros v Hin.
  rewrite Forall_forall in Hv. destruct (Hv v Hin) as (p & ->).
  rewrite Hf. reflexivity.
Qed.

(** * Further properties of the code *)

(** ** The constructor *)

Lemma sample_row_length
  (RNG : Type) (draw : RNG -> float -> float -> float * RNG) params :
  forall g, length (fst (sample_row draw g params)) = length params.
Proof.
  induction params as [|[m sd] t IH]; intros g; simpl; [reflexivity|].
  destruct (draw g m sd) as [v g1]. specialize (IH g1).
  destruct (sample_row draw g1 t) as [vs g2]. simpl in *. congruence.
Qed.

Lemma sample_rows_widths
  (RNG : Type) (draw : RNG -> float -> float -> float * RNG) params m :
  forall g,
    Forall (fun r => length r = length params)
           (fst (sample_rows draw m g params)).
Proof.
  induction m as [|m IH]; intros g; simpl; [constructor|].
  pose proof (sample_row_length RNG draw params g) as Hr.
  destruct (sample_row draw g params) as [r g1]. specialize (IH g1).
  destruct (sample_rows draw m g1 params) as [rs g2]. simpl in *.
  constructor; assumption.
Qed.

Lemma broadcast_length (n : Z) (l l' : list float) :
  0 <= n -> broadcast n l = Ok l' -> length l' = Z.to_nat n.
Proof.
  intros Hn. unfold broadcast.
  destruct (Z.of_nat (length l) =? n) eqn:E.
  - intros H. inv_ok. apply Z.eqb_eq in E. lia.
  - destruct l as [|a [|b t]]; intros H; inv_ok. apply repeat_length.
Qed.

Lemma normal_shape
  (RNG : Type) (draw : RNG -> float -> float -> float * RNG)
  g loc scale m n rows g' :
  normal draw g loc scale (m, n) = Ok (rows, g') ->
  0 <= m /\ 0 <= n /\ Z.of_nat (length rows) = m /\
  Forall (fun r => length r = Z.to_nat n) rows /\
  existsb sign_bit scale = false.
Proof.
  intros H.
  assert (Hml : 0 <= m /\ Z.of_nat (length rows) = m)
    by (eapply normal_rows; eassumption).
  unfold normal in H.
  destruct (existsb sign_bit scale) eqn:Es; [discriminate|].
  destruct ((m <? 0) || (n <? 0)) eqn:E; [discriminate|].
  apply orb_false_elim in E. destruct E as (_ & En). apply Z.ltb_ge in En.
  inv_bind H. rename a into loc'. inv_bind H. rename a into scale'.
  apply (broadcast_length n _ _ En) in Ha, Ha0.
  pose proof (sample_rows_widths RNG draw (combine loc' scale') (Z.to_nat m) g)
    as W.
  rewrite length_combine, Ha, Ha0, Nat.min_id in W.
  injection H as H. rewrite H in W. cbn [fst] in W.
  repeat split; tauto.
Qed.

Lemma normal_succeeds
  (RNG : Type) (draw : RNG -> float -> float -> float * RNG)
  g loc scale m n :
  0 <= m -> 0 <= n ->
  length loc = Z.to_nat n -> length scale = Z.to_nat n ->
  existsb sign_bit scale = false ->
  exists rows g', normal draw g loc scale (m, n) = Ok (rows, g').
Proof.
  intros Hm Hn Hl Hs He. unfold normal. rewrite He.
  destruct (m <? 0) eqn:E1; [apply Z.ltb_lt in E1; lia|].
  destruct (n <? 0) eqn:E2; [apply Z.ltb_lt in E2; lia|].
  cbn [orb]. unfold broadcast.
  rewrite Hl, Hs, Z2Nat.id, Z.eqb_refl by assumption. cbn [bind].
  destruct (sample_rows draw (Z.to_nat m) g (combine loc scale)) as [rows g'].
  eauto.
Qed.

(** An instance that the constructor returns holds the constructor's
    arguments, the prior in its model (mean pi, deviation 0.5, range
    [0, 2 pi] in each of the [n_variables] columns), a first population of
    [size_gen] individuals with [n_variables] coordinates each, an empty
    history and the two placeholders of the best-ever record. *)
Theorem init_state
  (RNG : Type) (draw : RNG -> float -> float -> float * RNG) (g : RNG)
  (maxiter sg n : Z) (a : float) (d : bool) (s : UMDA) (g' : RNG) :
  __init__ draw g maxiter sg n a d = Ok (s, g') ->
  well_formed s /\
  Z.of_nat (length (generation s)) = sg /\
  vector s = mk_vector (repeat np_pi (Z.to_nat n))
                       (repeat (literal 5 1) (Z.to_nat n))
                       (repeat (of_small_int 0) (Z.to_nat n))
                       (repeat (mul np_pi (of_small_int 2)) (Z.to_nat n)) /\
  (disp s, size_gen s, max_iter s, alpha s, n_variables s) =
    (d, sg, maxiter, a, n) /\
  history s = [] /\
  best_mae_global s = of_small_int 999999999999 /\
  best_ind_global s = Scalar 9999999.
Proof.
  intros H. apply init_inv in H.
  destruct H as (vec & dead & prod & tl & gen & Hv & _ & _ & _ & Hn & ->).
  unfold _initialization in Hv.
  destruct (n <? 0) eqn:En; [discriminate|]. apply Z.ltb_ge in En.
  inv_ok. cbn [v_mu v_std] in Hn.
  apply normal_shape in Hn. destruct Hn as (_ & _ & Hlen & Hw & _).
  unfold well_formed. cbn.
  rewrite !repeat_length. repeat split; auto.
Qed.

(** [init_state], witness. *)
Lemma init_state_witness :
  well_formed (fst constructed_example) /\
  Z.of_nat (length (generation (fst constructed_example))) = 4.
Proof.
  assert (H : __init__ Instances.draw 0%nat 10 4 1 (literal 5 1) false =
              Ok (fst constructed_example, snd constructed_example))
    by (vm_compute; reflexivity).
  pose proof (init_state nat Instances.draw 0%nat 10 4 1 (literal 5 1) false
                (fst constructed_example) (snd constructed_example) H) as T.
  split; [exact (proj1 T)|exact (proj1 (proj2 T))].
Defined.

(** The constructor raises on these arguments, in the order of its
    statements: a negative [n_variables] raises [ValueError] (the arrays
    of the model cannot be made); a negative [size_gen] raises, whatever
    the other arguments; and, once the model is made and [maxiter / 5]
    taken, a product [size_gen * alpha] that is NaN raises [ValueError], an
    infinite one raises [OverflowError] (both at [int(...)]), and a finite
    one with a negative [size_gen] raises [ValueError] at the sampling
    call. *)
Theorem init_raises
  (RNG : Type) (draw : RNG -> float -> float -> float * RNG) (g : RNG)
  (maxiter sg n : Z) (a : float) (d : bool) :
  (n < 0 -> __init__ draw g maxiter sg n a d = Raise ValueError) /\
  (sg < 0 -> exists e, __init__ draw g maxiter sg n a d = Raise e) /\
  (forall dead prod,
     0 <= n ->
     int_truediv maxiter 5 = Ok dead ->
     int_mul sg a = Ok prod ->
     (is_nan prod = true ->
      __init__ draw g maxiter sg n a d = Raise ValueError) /\
     (is_nan prod = false -> is_finite prod = false ->
      __init__ draw g maxiter sg n a d = Raise OverflowError) /\
     (is_finite prod = true -> sg < 0 ->
      __init__ draw g maxiter sg n a d = Raise ValueError)).
Proof.
  assert (Hneg : forall vec,
            _initialization n = Ok vec -> sg < 0 ->
            normal draw g (v_mu vec) (v_std vec) (sg, n) = Raise ValueError).
  { intros vec Hv Hs. unfold _initialization in Hv.
    destruct (n <? 0); [discriminate|]. inv_ok.
    unfold normal. cbn [v_mu v_std].
    rewrite existsb_repeat_false by reflexivity.
    apply Z.ltb_lt in Hs. rewrite Hs. reflexivity. }
  split; [|split].
  - intros Hn. unfold __init__, _initialization.
    destruct (n <? 0) eqn:En; [reflexivity|]. apply Z.ltb_ge in En. lia.
  - intros Hs. unfold __init__.
    destruct (_initialization n) as [vec|e] eqn:Ev; cbn [bind]; [|eauto].
    destruct (int_truediv maxiter 5) as [dead|e]; cbn [bind]; [|eauto].
    destruct (int_mul sg a) as [prod|e]; cbn [bind]; [|eauto].
    destruct (to_int prod) as [tl|e]; cbn [bind]; [|eauto].
    rewrite (Hneg vec eq_refl Hs). cbn [bind]. eauto.
  - intros dead prod Hn Hd Hp.
    assert (Ev : exists vec, _initialization n = Ok vec).
    { unfold _initialization.
      destruct (n <? 0) eqn:En; [apply Z.ltb_lt in En; lia|]. eauto. }
    destruct Ev as (vec & Ev).
    pose proof (fun Hs => Hneg vec Ev Hs) as Hneg'.
    unfold __init__. rewrite Ev. cbn [bind]. rewrite Hd. cbn [bind].
    rewrite Hp. cbn [bind].
    split; [|split].
    + intros H. destruct prod; try discriminate H. reflexivity.
    + intros H1 H2. destruct prod; try discriminate H1; try discriminate H2.
      reflexivity.
    + intros H Hs. destruct (to_int prod) as [tl|e] eqn:Et.
      * cbn [bind]. rewrite (Hneg' Hs). reflexivity.
      * destruct prod; discriminate.
Qed.

(** [init_raises], witness: [UMDA(10, 4, -1, 0.5)] and
    [UMDA(10, 4, 1, nan)] raise [ValueError], [UMDA(10, -4, 1, 0.5)] raises
    [ValueError] at the sampling call, [UMDA(10, 4, 1, inf)] raises
    [OverflowError]. *)
Lemma init_raises_witness :
  __init__ Instances.draw 0%nat 10 4 (-1) (literal 5 1) false
    = Raise ValueError /\
  (exists e, __init__ Instances.draw 0%nat 10 (-4) 1 (literal 5 1) false
             = Raise e) /\
  __init__ Instances.draw 0%nat 10 4 1 nan false = Raise ValueError /\
  __init__ Instances.draw 0%nat 10 4 1 (S754_infinity false) false
    = Raise OverflowError /\
  __init__ Instances.draw 0%nat 10 (-4) 1 (literal 5 1) false
    = Raise ValueError.
Proof.
  split; [|split; [|split; [|split]]].
  - apply (proj1 (init_raises nat Instances.draw 0%nat 10 4 (-1)
                    (literal 5 1) false)).
    lia.
  - apply (proj1 (proj2 (init_raises nat Instances.draw 0%nat 10 (-4) 1
                           (literal 5 1) false))).
    lia.
  - refine (proj1 (proj2 (proj2 (init_raises nat Instances.draw 0%nat 10 4 1
                                   nan false))
                     (literal 2 0) nan _ _ _) _);
      [lia | reflexivity | reflexivity | reflexivity].
  - refine (proj1 (proj2 (proj2 (proj2 (init_raises nat Instances.draw 0%nat
                                          10 4 1 (S754_infinity false) false))
                            (literal 2 0) (S754_infinity false) _ _ _)) _ _);
      [lia | reflexivity | reflexivity | reflexivity | reflexivity].
  - refine (proj2 (proj2 (proj2 (proj2 (init_raises nat Instances.draw 0%nat
                                          10 (-4) 1 (literal 5 1) false))
                            (literal 2 0) (of_small_int (-2)) _ _ _)) _ _);
      [lia | reflexivity | reflexivity | reflexivity | lia].
Defined.

(** ** The steps of an iteration *)

Lemma take_map {A B : Type} (h : A -> B) (l : list A) (idx : list nat) l' :
  take l idx = Ok l' -> take (map h l) idx = Ok (map h l').
Proof.
  unfold take. revert l'. induction idx as [|i t IH]; simpl; intros l' H.
  - inv_ok. reflexivity.
  - inv_bind H. inv_bind H. inv_ok.
    unfold get_item in *. rewrite nth_error_map.
    destruct (nth_error l i); [|discriminate]. inv_ok. cbn.
    rewrite (IH _ Ha0). reflexivity.
Qed.

Lemma take_length {A : Type} (l : list A) (idx : list nat) l' :
  take l idx = Ok l' -> length l' = length idx.
Proof.
  unfold take. revert l'. induction idx as [|i t IH]; simpl; intros l' H.
  - inv_ok. reflexivity.
  - inv_bind H. inv_bind H. inv_ok. simpl. f_equal. eauto.
Qed.

Lemma where_first_found (l : list float) (a : float) (i : nat) :
  where_first l a = Ok i ->
  exists b, nth_error l i = Some b /\ eqb b a = true.
Proof.
  revert i; induction l as [|b t IH]; simpl; intros i H; [discriminate|].
  destruct (eqb b a) eqn:E.
  - inv_ok. exists b. auto.
  - inv_bind H. inv_ok. simpl. eauto.
Qed.

Lemma where_first_none (l : list float) (a : float) :
  (forall b, In b l -> eqb b a = false) -> where_first l a = Raise IndexError.
Proof.
  induction l as [|b t IH]; simpl; intros H; [reflexivity|].
  rewrite (H b) by auto. rewrite IH by auto. reflexivity.
Qed.

(** An iteration that returns went through these steps. *)
Lemma iteration_steps
  (RNG : Type) (draw : RNG -> float -> float -> float * RNG)
  (norm_fit : list float -> result (float * float))
  (argsort : list float -> list nat) (f : objective)
  (c c' : frame RNG) (ctl : control) :
  iteration draw norm_fit argsort f c = Ok (c', ctl) ->
  exists s1 s2 s3 local i ind,
    _check_generation f (self c) = Ok s1 /\
    _truncation argsort s1 = Ok s2 /\
    _update_vector norm_fit s2 = Ok s3 /\
    py_min (evaluations s2) = Ok local /\
    where_first (evaluations s2) local = Ok i /\
    get_item i (generation s2) = Ok ind /\
    exists s5,
      s5 = (if ltb local (best_mae_global (self c))
            then with_best local (Individual ind)
                   (with_history (history (self c) ++ [local]) s3)
            else with_history (history (self c) ++ [local]) s3) /\
      match ctl with
      | Break => self c' = s5 /\ rng c' = rng c
      | Continue => _new_generation draw s5 (rng c) = Ok (self c', rng c')
      end.
Proof.
  unfold iteration. intros H.
  inv_bind H. rename a into s1. inv_bind H. rename a into s2.
  inv_bind H. rename a into s3. inv_bind H. rename a into local.
  inv_bind H. rename a into i. inv_bind H. rename a into ind.
  exists s1, s2, s3, local, i, ind.
  pose proof (check_generation_inv _ _ _ Ha) as (_ & E1).
  destruct (truncation_inv _ _ _ Ha0) as (gen & ev & _ & _ & E2).
  destruct (update_vector_inv _ _ _ Ha1) as (v & _ & E3).
  assert (Eev : evaluations s3 = evaluations s2) by (subst s3; reflexivity).
  assert (Egen : generation s3 = generation s2) by (subst s3; reflexivity).
  assert (Eh : history s3 = history (self c))
    by (subst s3 s2 s1; reflexivity).
  assert (Eb : best_mae_global s3 = best_mae_global (self c))
    by (subst s3 s2 s1; reflexivity).
  cbn [evaluations generation best_mae_global with_history] in Ha2, Ha3, Ha4, H.
  rewrite Eev in Ha2, Ha3. rewrite Egen in Ha4. rewrite Eb, Eh in H.
  repeat (split; [assumption|]).
  eexists. split; [reflexivity|].
  destruct (ltb local (best_mae_global (self c))).
  - inv_bind H. destruct a as [s6 g']. inv_ok. exact Ha5.
  - destruct (int_eqb (not_better c + 1) _).
    + inv_ok. auto.
    + inv_bind H. destruct a as [s6 g']. inv_ok. exact Ha5.
Qed.

(** ** Evaluation and truncation together *)

(** After the population has been evaluated and truncated, the
    evaluations are still those of the population, position by position:
    [evaluations[j]] is the objective at [generation[j]].  Every kept
    individual is one of the population that was evaluated. *)
Theorem elite_aligned
  (argsort : list float -> list nat) (f : objective) (s s1 s2 : UMDA) :
  _check_generation f s = Ok s1 ->
  _truncation argsort s1 = Ok s2 ->
  evaluations s2 = map f (generation s2) /\
  length (evaluations s2) = length (generation s2) /\
  (forall p, In p (generation s2) -> In p (generation s)) /\
  settings s2 = settings s /\ vector s2 = vector s /\ history s2 = history s.
Proof.
  intros H1 H2. apply check_generation_inv in H1. destruct H1 as (_ & ->).
  apply truncation_inv in H2. destruct H2 as (gen & ev & Hg & He & ->).
  cbn [generation evaluations with_evaluations with_generation] in *.
  pose proof (take_map f _ _ _ Hg) as Hm. rewrite He in Hm.
  injection Hm as ->.
  repeat split.
  - apply length_map.
  - intros p Hp. eapply take_In; eassumption.
Qed.

(** [elite_aligned], witness. *)
Lemma elite_aligned_witness :
  exists s1 s2,
    _check_generation Instances.first_coordinate (fst constructed_example)
      = Ok s1 /\
    _truncation Instances.argsort s1 = Ok s2 /\
    evaluations s2 = map Instances.first_coordinate (generation s2).
Proof.
  assert (H1 : {x | _check_generation Instances.first_coordinate
                      (fst constructed_example) = Ok x})
    by (eexists; vm_compute; reflexivity).
  destruct H1 as [s1 H1].
  assert (H2 : {x | reference_truncated Instances.first_coordinate
                      (fst constructed_example) = Ok x})
    by (eexists; vm_compute; reflexivity).
  destruct H2 as [s2 H2].
  unfold reference_truncated in H2. rewrite H1 in H2. cbn [bind] in H2.
  exists s1, s2. split; [exact H1|]. split; [exact H2|].
  exact (proj1 (elite_aligned Instances.argsort Instances.first_coordinate
                  (fst constructed_example) s1 s2 H1 H2)).
Defined.

(** ** The best-ever record and the history *)

Lemma check_truncate_aligned
  (argsort : list float -> list nat) (f : objective) (s s1 s2 : UMDA) :
  _check_generation f s = Ok s1 ->
  _truncation argsort s1 = Ok s2 ->
  evaluations s2 = map f (generation s2).
Proof.
  intros H1 H2. apply check_generation_inv in H1. destruct H1 as (_ & ->).
  apply truncation_inv in H2. destruct H2 as (gen & ev & Hg & He & ->).
  cbn [generation evaluations with_evaluations with_generation] in *.
  pose proof (take_map f _ _ _ Hg) as Hm. rewrite He in Hm.
  injection Hm as ->. reflexivity.
Qed.

Lemma iteration_consistent
  (RNG : Type) (draw : RNG -> float -> float -> float * RNG)
  (norm_fit : list float -> result (float * float))
  (argsort : list float -> list nat) (f : objective)
  (c c' : frame RNG) (ctl : control) :
  iteration draw norm_fit argsort f c = Ok (c', ctl) ->
  record_consistent f (self c) ->
  record_consistent f (self c').
Proof.
  intros H Hc. apply iteration_steps in H.
  destruct H as (s1 & s2 & s3 & local & i & ind & H1 & H2 & H3 & _ & Hw & Hg
                 & s5 & E5 & Hctl).
  pose proof (check_truncate_aligned _ _ _ _ _ H1 H2) as Hal.
  assert (Hind : eqb (f ind) local = true).
  { apply where_first_found in Hw. destruct Hw as (b & Hb & Eb).
    apply get_item_Ok in Hg. rewrite Hal, nth_error_map, Hg in Hb.
    cbn in Hb. congruence. }
  assert (H5 : record_consistent f s5).
  { apply check_generation_inv in H1. destruct H1 as (_ & ->).
    apply truncation_inv in H2. destruct H2 as (gen & ev & _ & _ & ->).
    apply update_vector_inv in H3. destruct H3 as (v & _ & ->).
    subst s5. unfold record_consistent in *.
    destruct (ltb local (best_mae_global (self c))); cbn; assumption. }
  destruct ctl.
  - destruct (new_generation_settings _ _ _ _ _ _ Hctl)
      as (_ & _ & Hb & Hi & _).
    unfold record_consistent in *. rewrite Hb, Hi. assumption.
  - destruct Hctl as (-> & _). assumption.
Qed.

(** On an instance whose best-ever record is coherent for the objective,
    which includes every instance that still holds the constructor's
    placeholder, the record that [minimize] returns is coherent: when [x]
    is a point, [fun] compares equal to the objective at [x]. *)
Theorem result_point_attains_value
  (RNG : Type) (draw : RNG -> float -> float -> float * RNG)
  (norm_fit : list float -> result (float * float))
  (argsort : list float -> list nat) (f : objective)
  (s : UMDA) (g : RNG) (r : OptimizerResult) (s' : UMDA) (g' : RNG) :
  record_consistent f s ->
  minimize draw norm_fit argsort f s g = Ok (r, s', g') ->
  record_consistent f s' /\
  (forall p, result_x r = Individual p -> eqb (f p) (result_fun r) = true).
Proof.
  intros Hc Hm. apply minimize_inv in Hm.
  destruct Hm as (c & k & Hloop & -> & _ & ->).
  assert (Hinv : forall n (c0 c1 : frame RNG) k0,
             for_range draw norm_fit argsort f n c0 = Ok (c1, k0) ->
             record_consistent f (self c0) -> record_consistent f (self c1)).
  { induction n as [|n IH]; simpl; intros c0 c1 k0 H H0.
    - inv_ok. assumption.
    - inv_bind H. destruct a as [c2 ctl].
      pose proof (iteration_consistent _ _ _ _ _ _ _ _ Ha H0) as H2.
      destruct ctl.
      + inv_bind H. destruct a as [c3 k3]. inv_ok. eauto.
      + inv_ok. assumption. }
  assert (Hs' : record_consistent f (self c)).
  { eapply Hinv; [exact Hloop|]. exact Hc. }
  split; [assumption|].
  cbn [result_x result_fun]. intros p Hp.
  unfold record_consistent in Hs'. rewrite Hp in Hs'. assumption.
Qed.

(** [result_point_attains_value], witness: a first run of the constructed
    example. *)
Lemma result_point_attains_value_witness :
  exists r s' g',
    reference_minimize Instances.first_coordinate
      (fst constructed_example) (snd constructed_example) = Ok (r, s', g') /\
    (forall p, result_x r = Individual p ->
               eqb (Instances.first_coordinate p) (result_fun r) = true).
Proof.
  assert (H : {x | reference_minimize Instances.first_coordinate
                     (fst constructed_example) (snd constructed_example)
                   = Ok x})
    by (eexists; vm_compute; reflexivity).
  destruct H as [[[r s'] g'] H].
  exists r, s', g'. split; [exact H|].
  exact (proj2 (result_point_attains_value nat Instances.draw
                  Instances.norm_fit Instances.argsort
                  Instances.first_coordinate
                  (fst constructed_example) (snd constructed_example)
                  r s' g' I H)).
Defined.

Lemma not_below_not_worse (v b b' : float) :
  ltb v b = false -> not_worse b' b -> ltb v b' = false.
Proof.
  intros Hv [->|Hlt]; [assumption|].
  destruct (ltb v b') eqn:E; [|reflexivity].
  rewrite (ltb_trans _ _ _ E Hlt) in Hv. discriminate.
Qed.

Lemma for_range_history_bound
  (RNG : Type) (draw : RNG -> float -> float -> float * RNG)
  (norm_fit : list float -> result (float * float))
  (argsort : list float -> list nat) (f : objective) n :
  forall (c c' : frame RNG) k,
    for_range draw norm_fit argsort f n c = Ok (c', k) ->
    exists locals,
      history (self c') = history (self c) ++ locals /\
      Forall (fun v => ltb v (best_mae_global (self c')) = false) locals /\
      (best_mae_global (self c') = best_mae_global (self c) \/
       In (best_mae_global (self c')) locals).
Proof.
  induction n as [|n IH]; simpl; intros c c' k H.
  - inv_ok. exists []. rewrite app_nil_r. auto.
  - inv_bind H. destruct a as [c1 ctl].
    apply iteration_spec in Ha. destruct Ha as (_ & local & Hh & _ & Hb).
    assert (H1 : ltb local (best_mae_global (self c1)) = false /\
                 (best_mae_global (self c1) = best_mae_global (self c) \/
                  best_mae_global (self c1) = local)).
    { destruct (ltb local (best_mae_global (self c))) eqn:E.
      - destruct Hb as (-> & _). split; [apply ltb_irrefl|auto].
      - destruct Hb as (-> & _). auto. }
    destruct H1 as (Hl & Hor).
    destruct ctl.
    + inv_bind H. destruct a as [c2 k2]. inv_ok.
      destruct (IH _ _ _ Ha) as (locals & Hh2 & Hall & Hin).
      pose proof (for_range_not_worse _ _ _ _ _ _ _ _ _ Ha) as Hnw.
      exists (local :: locals). split; [|split].
      * rewrite Hh2, Hh, <- app_assoc. reflexivity.
      * constructor; [|assumption].
        eapply not_below_not_worse; eassumption.
      * destruct Hin as [Hin|Hin]; [|right; right; assumption].
        rewrite Hin. destruct Hor as [->| ->]; [left|right; left]; reflexivity.
    + inv_ok. exists [local]. split; [assumption|]. split.
      * constructor; [assumption|constructor].
      * destruct Hor as [->| ->]; [left|right; left]; reflexivity.
Qed.

(** The fitness that [minimize] returns is not above any of the
    per-iteration best values the run recorded in the history (no history
    entry is [<] it), and it is either the best-ever fitness the instance
    held before the call or one of the history entries. *)
Theorem result_bounds_history
  (RNG : Type) (draw : RNG -> float -> float -> float * RNG)
  (norm_fit : list float -> result (float * float))
  (argsort : list float -> list nat) (f : objective)
  (s : UMDA) (g : RNG) (r : OptimizerResult) (s' : UMDA) (g' : RNG) :
  minimize draw norm_fit argsort f s g = Ok (r, s', g') ->
  Forall (fun v => ltb v (result_fun r) = false) (history s') /\
  (result_fun r = best_mae_global s \/ In (result_fun r) (history s')).
Proof.
  intros Hm. apply minimize_inv in Hm.
  destruct Hm as (c & k & Hloop & -> & _ & ->).
  destruct (for_range_history_bound _ _ _ _ _ _ _ _ _ Hloop)
    as (locals & Hh & Hall & Hin).
  cbn [self history with_history app best_mae_global] in Hh, Hin.
  cbn [result_fun]. rewrite Hh. auto.
Qed.

(** [result_bounds_history], witness. *)
Lemma result_bounds_history_witness :
  exists r s' g',
    reference_minimize Instances.first_coordinate
      (fst constructed_example) (snd constructed_example) = Ok (r, s', g') /\
    Forall (fun v => ltb v (result_fun r) = false) (history s').
Proof.
  assert (H : {x | reference_minimize Instances.first_coordinate
                     (fst constructed_example) (snd constructed_example)
                   = Ok x})
    by (eexists; vm_compute; reflexivity).
  destruct H as [[[r s'] g'] H].
  exists r, s', g'. split; [exact H|].
  exact (proj1 (result_bounds_history nat Instances.draw
                  Instances.norm_fit Instances.argsort
                  Instances.first_coordinate
                  (fst constructed_example) (snd constructed_example)
                  r s' g' H)).
Defined.

(** ** The size of the population *)

Lemma insert_index_length ev i l :
  length (Instances.insert_index ev i l) = S (length l).
Proof.
  induction l as [|j t IH]; simpl; [reflexivity|].
  destruct (Instances.before _ _); simpl; congruence.
Qed.

Lemma reference_argsort_keeps_length : keeps_length Instances.argsort.
Proof.
  intros ev. unfold Instances.argsort.
  assert (H : forall l acc,
             length (fold_left (fun acc i => Instances.insert_index ev i acc)
                               l acc) = (length l + length acc)%nat).
  { induction l as [|i t IH]; intros acc; simpl; [reflexivity|].
    rewrite IH, insert_index_length. lia. }
  rewrite H, length_seq. simpl. lia.
Qed.

Lemma truncation_size
  (argsort : list float -> list nat) (s s' : UMDA) :
  length (argsort (evaluations s)) = length (generation s) ->
  0 <= truncation_length s ->
  _truncation argsort s = Ok s' ->
  Z.of_nat (length (generation s')) =
    Z.min (truncation_length s) (Z.of_nat (length (generation s))).
Proof.
  intros Hl Ht H. apply truncation_inv in H.
  destruct H as (gen & ev & Hg & _ & ->).
  cbn [generation with_evaluations with_generation].
  rewrite (take_length _ _ _ Hg). unfold best_indices.
  rewrite slice_to_length by assumption. rewrite Hl. reflexivity.
Qed.

(** With an [argsort] that answers with one position per value: an
    iteration that enters with at least [truncation_length] individuals
    (and a non-negative [truncation_length]) truncates to exactly
    [truncation_length] of them.  If it leaves the loop, those are the
    population it leaves; otherwise the next population has
    [min(k, truncation_length) + size_gen] individuals, where
    [k = int(ELITE_FACTOR * truncation_length)]. *)
Theorem iteration_population_size
  (RNG : Type) (draw : RNG -> float -> float -> float * RNG)
  (norm_fit : list float -> result (float * float))
  (argsort : list float -> list nat) (f : objective)
  (c c' : frame RNG) (ctl : control) :
  keeps_length argsort ->
  0 <= truncation_length (self c) ->
  truncation_length (self c) <= Z.of_nat (length (generation (self c))) ->
  iteration draw norm_fit argsort f c = Ok (c', ctl) ->
  match ctl with
  | Break =>
      Z.of_nat (length (generation (self c'))) = truncation_length (self c)
  | Continue =>
      exists k,
        to_int (mul ELITE_FACTOR (of_small_int (truncation_length (self c))))
          = Ok k /\
        0 <= k /\ 0 <= size_gen (self c) /\
        Z.of_nat (length (generation (self c'))) =
          Z.min k (truncation_length (self c)) + size_gen (self c)
  end.
Proof.
  intros Hk Ht Hlen H. apply iteration_steps in H.
  destruct H as (s1 & s2 & s3 & local & i & ind & H1 & H2 & H3 & _ & _ & _
                 & s5 & E5 & Hctl).
  pose proof (check_generation_inv _ _ _ H1) as (_ & E1).
  assert (Hs2 : Z.of_nat (length (generation s2)) = truncation_length (self c)).
  { rewrite (truncation_size argsort s1 s2); subst s1;
      cbn [generation evaluations truncation_length with_evaluations];
      try assumption.
    - lia.
    - rewrite Hk. apply length_map. }
  destruct (truncation_inv _ _ _ H2) as (gen & ev & _ & _ & E2).
  destruct (update_vector_inv _ _ _ H3) as (v & _ & E3).
  assert (E5g : generation s5 = generation s2).
  { subst s5 s3. destruct (ltb local _); reflexivity. }
  assert (E5s : size_gen s5 = size_gen (self c)).
  { subst s5 s3 s2 s1. destruct (ltb local _); reflexivity. }
  destruct ctl.
  - apply new_generation_inv in Hctl.
    destruct Hctl as (fresh & k & Hn & Hke & Es).
    pose proof (elite_count_nonneg _ _ Hke) as Hk0.
    apply normal_shape in Hn. destruct Hn as (Hsz & _ & Hfl & _).
    unfold elite_count in Hke. rewrite E5g, Hs2 in Hke.
    exists k. rewrite <- E5s. repeat split; try assumption.
    rewrite Es. cbn [generation with_generation].
    rewrite length_app, Nat2Z.inj_add, slice_to_length, E5g, Hs2, Hfl
      by assumption.
    reflexivity.
  - destruct Hctl as (-> & _). rewrite E5g. assumption.
Qed.

(** [iteration_population_size], witness: an iteration of the constructed
    example. *)
Lemma iteration_population_size_witness :
  exists c' k,
    reference_iteration Instances.first_coordinate
      (mk_frame (fst constructed_example) (snd constructed_example) 0)
      = Ok (c', Continue) /\
    to_int (mul ELITE_FACTOR (of_small_int 2)) = Ok k /\
    Z.of_nat (length (generation (self c'))) = Z.min k 2 + 4.
Proof.
  assert (H : {x | reference_iteration Instances.first_coordinate
                     (mk_frame (fst constructed_example)
                               (snd constructed_example) 0)
                   = Ok (x, Continue)})
    by (eexists; vm_compute; reflexivity).
  destruct H as [c' H].
  pose proof (iteration_population_size nat Instances.draw Instances.norm_fit
                Instances.argsort Instances.first_coordinate
                (mk_frame (fst constructed_example)
                          (snd constructed_example) 0)
                c' Continue reference_argsort_keeps_length) as T.
  cbn [self] in T.
  destruct T as (k & Hk & _ & _ & Hl).
  - vm_compute. discriminate.
  - vm_compute. discriminate.
  - exact H.
  - exists c', k. split; [exact H|]. split; [exact Hk|exact Hl].
Defined.

(** With such an [argsort], on an instance whose [truncation_length] lies
    between 0 and [size_gen], the loop keeps the population within bounds:
    before every iteration and at the end of the loop it has at least
    [truncation_length] individuals, so every truncation selects exactly
    [truncation_length] of them, and never more than
    [truncation_length + size_gen]: it does not keep growing. *)
Theorem population_stays_in_bounds
  (RNG : Type) (draw : RNG -> float -> float -> float * RNG)
  (norm_fit : list float -> result (float * float))
  (argsort : list float -> list nat) (f : objective)
  (n : nat) (c c' : frame RNG) (k : nat) :
  keeps_length argsort ->
  population_in_bounds (self c) ->
  for_range draw norm_fit argsort f n c = Ok (c', k) ->
  population_in_bounds (self c').
Proof.
  intros Hk. revert c c' k.
  induction n as [|n IH]; cbn [for_range]; intros c c' k Hb H.
  - inv_ok. assumption.
  - inv_bind H. destruct a as [c1 ctl].
    assert (Hb1 : population_in_bounds (self c1)).
    { destruct Hb as (H0 & Hts & Htl & _).
      pose proof (iteration_spec _ _ _ _ _ _ _ _ Ha) as (Hset & _).
      assert (Et : truncation_length (self c1) = truncation_length (self c))
        by (unfold settings in Hset; congruence).
      assert (Es : size_gen (self c1) = size_gen (self c))
        by (unfold settings in Hset; congruence).
      apply iteration_steps in Ha.
      destruct Ha as (s1 & s2 & s3 & local & i & ind & H1 & H2 & H3 & _ & _
                      & _ & s5 & E5 & Hctl).
      pose proof (check_generation_inv _ _ _ H1) as (_ & E1).
      assert (Hs2 : Z.of_nat (length (generation s2)) =
                    truncation_length (self c)).
      { rewrite (truncation_size argsort s1 s2); subst s1;
          cbn [generation evaluations truncation_length with_evaluations];
          try assumption.
        - lia.
        - rewrite Hk. apply length_map. }
      destruct (update_vector_inv _ _ _ H3) as (v & _ & E3).
      assert (E5g : generation s5 = generation s2).
      { subst s5 s3. destruct (ltb local _); reflexivity. }
      unfold population_in_bounds. rewrite Et, Es.
      destruct ctl.
      - apply new_generation_inv in Hctl.
        destruct Hctl as (fresh & ke & Hn & Hke & Esn).
        pose proof (elite_count_nonneg _ _ Hke) as Hk0.
        apply normal_shape in Hn. destruct Hn as (_ & _ & Hfl & _).
        assert (E5s : size_gen s5 = size_gen (self c)).
        { destruct (truncation_inv _ _ _ H2) as (gen & ev & _ & _ & E2).
          subst s5 s3 s2 s1. destruct (ltb local _); reflexivity. }
        rewrite Esn. cbn [generation with_generation].
        rewrite length_app, Nat2Z.inj_add, slice_to_length, E5g, Hs2, Hfl, E5s
          by assumption.
        lia.
      - destruct Hctl as (-> & _). rewrite E5g, Hs2. lia. }
    destruct ctl.
    + inv_bind H. destruct a as [c2 k2]. inv_ok. eapply IH; eassumption.
    + inv_ok. assumption.
Qed.

(** [population_stays_in_bounds], witness: the loop of the constructed
    example. *)
Lemma population_stays_in_bounds_witness :
  population_in_bounds (fst constructed_example) /\
  exists c' k,
    reference_loop Instances.first_coordinate 10
      (mk_frame (fst constructed_example) (snd constructed_example) 0)
      = Ok (c', k) /\
    population_in_bounds (self c').
Proof.
  assert (Hb : population_in_bounds (fst constructed_example)).
  { unfold population_in_bounds. vm_compute. repeat split; discriminate. }
  split; [exact Hb|].
  assert (H : {x | reference_loop Instances.first_coordinate 10
                     (mk_frame (fst constructed_example)
                               (snd constructed_example) 0) = Ok x})
    by (eexists; vm_compute; reflexivity).
  destruct H as [[c' k] H].
  exists c', k. split; [exact H|].
  exact (population_stays_in_bounds nat Instances.draw Instances.norm_fit
           Instances.argsort Instances.first_coordinate 10
           (mk_frame (fst constructed_example) (snd constructed_example) 0)
           c' k reference_argsort_keeps_length Hb H).
Defined.

(** ** Shapes are kept, and a re-fit leaves a model one can sample from *)

Lemma sign_bit_below (sd : float) :
  sign_bit sd = true -> ltb sd STD_BOUND = true.
Proof.
  destruct sd as [s|s| |s m e]; simpl; intros H; try discriminate;
    subst s; reflexivity.
Qed.

Lemma clamp_sign (sd : float) : sign_bit (clamp sd) = false.
Proof.
  unfold clamp. destruct (ltb sd STD_BOUND) eqn:E; [reflexivity|].
  destruct (sign_bit sd) eqn:Es; [|reflexivity].
  rewrite (sign_bit_below _ Es) in E. discriminate.
Qed.

Lemma existsb_false_forall {A : Type} (p : A -> bool) (l : list A) :
  (forall a, In a l -> p a = false) -> existsb p l = false.
Proof.
  induction l as [|a t IH]; simpl; intros H; [reflexivity|].
  rewrite (H a) by auto. apply IH. auto.
Qed.

Lemma same_width_Forall {A : Type} (n : nat) (a : list (list A)) :
  Forall (fun r => length r = n) a -> same_width a = true.
Proof.
  destruct a as [|r t]; [reflexivity|]. intros H.
  inversion H as [|? ? Hr Ht]; subst. simpl.
  apply forallb_forall. intros r' Hr'.
  rewrite Forall_forall in Ht. rewrite (Ht r' Hr'). apply Nat.eqb_refl.
Qed.

Lemma update_vector_shapes
  (norm_fit : list float -> result (float * float)) (s s' : UMDA) :
  _update_vector norm_fit s = Ok s' ->
  well_formed s ->
  well_formed s' /\
  existsb sign_bit (v_std (vector s')) = false /\
  generation s' = generation s /\ settings s' = settings s.
Proof.
  intros H (Hn & Hg & Hmu & Hstd).
  apply update_vector_inv in H. destruct H as (v & Hv & ->).
  pose proof (update_dimensions_length _ _ _ _ _ Hv) as (Lmu & Lstd).
  apply update_dimensions_spec in Hv; [|apply seq_NoDup].
  destruct Hv as (Hin & _).
  unfold well_formed. cbn.
  rewrite Lmu, Lstd. repeat split; auto.
  apply existsb_false_forall. intros a Ha.
  apply In_nth_error in Ha. destruct Ha as (i & Hi).
  assert (Hlt : (i < length (v_std v))%nat).
  { apply nth_error_Some. congruence. }
  destruct (Hin i) as (col & m & sd & _ & _ & _ & Hs).
  { apply in_seq. lia. }
  rewrite Hs in Hi. injection Hi as <-. apply clamp_sign.
Qed.

Lemma truncation_shapes
  (argsort : list float -> list nat) (s s' : UMDA) :
  _truncation argsort s = Ok s' ->
  well_formed s -> well_formed s'.
Proof.
  intros H (Hn & Hg & Hmu & Hstd). apply truncation_inv in H.
  destruct H as (gen & ev & Hgen & _ & ->).
  unfold well_formed. cbn. repeat split; auto.
  rewrite Forall_forall in *. intros row Hrow. apply Hg.
  eapply take_In; eassumption.
Qed.

Lemma new_generation_shapes
  (RNG : Type) (draw : RNG -> float -> float -> float * RNG)
  (s : UMDA) (g : RNG) (s' : UMDA) (g' : RNG) :
  _new_generation draw s g = Ok (s', g') ->
  well_formed s -> well_formed s'.
Proof.
  intros H (Hn & Hg & Hmu & Hstd). apply new_generation_inv in H.
  destruct H as (fresh & k & Hnorm & _ & ->).
  apply normal_shape in Hnorm. destruct Hnorm as (_ & _ & _ & Hw & _).
  unfold well_formed. cbn. repeat split; auto.
  apply Forall_app. split; [|assumption].
  destruct (slice_to_prefix k (generation s)) as (m & ->).
  rewrite Forall_forall in *. intros row Hrow. apply Hg.
  eapply In_firstn; eassumption.
Qed.

Lemma iteration_shapes
  (RNG : Type) (draw : RNG -> float -> float -> float * RNG)
  (norm_fit : list float -> result (float * float))
  (argsort : list float -> list nat) (f : objective)
  (c c' : frame RNG) (ctl : control) :
  iteration draw norm_fit argsort f c = Ok (c', ctl) ->
  well_formed (self c) -> well_formed (self c').
Proof.
  intros H Hw. apply iteration_steps in H.
  destruct H as (s1 & s2 & s3 & local & i & ind & H1 & H2 & H3 & _ & _ & _
                 & s5 & E5 & Hctl).
  apply check_generation_inv in H1. destruct H1 as (_ & E1).
  assert (W1 : well_formed s1) by (subst s1; exact Hw).
  pose proof (truncation_shapes _ _ _ H2 W1) as W2.
  pose proof (update_vector_shapes _ _ _ H3 W2) as (W3 & _).
  assert (W5 : well_formed s5).
  { subst s5. destruct (ltb local _); exact W3. }
  destruct ctl.
  - eapply new_generation_shapes; eassumption.
  - destruct Hctl as (-> & _). assumption.
Qed.

Lemma update_dimensions_range
  (norm_fit : list float -> result (float * float))
  (gen : list (list float)) (range : list nat) :
  forall v v',
    update_dimensions norm_fit gen v range = Ok v' ->
    v_min v' = v_min v /\ v_max v' = v_max v.
Proof.
  induction range as [|i t IH]; intros v v' H.
  - cbn in H. inv_ok. auto.
  - cbn [update_dimensions] in H. inv_bind H. rename a into v1.
    destruct (IH _ _ H) as (-> & ->).
    apply update_dimension_inv in Ha.
    destruct Ha as (col & m & sd & _ & _ & _ & _ & _ & _ & E1 & E2). auto.
Qed.

Lemma iteration_range_rows
  (RNG : Type) (draw : RNG -> float -> float -> float * RNG)
  (norm_fit : list float -> result (float * float))
  (argsort : list float -> list nat) (f : objective)
  (c c' : frame RNG) (ctl : control) :
  iteration draw norm_fit argsort f c = Ok (c', ctl) ->
  v_min (vector (self c')) = v_min (vector (self c)) /\
  v_max (vector (self c')) = v_max (vector (self c)).
Proof.
  intros H. apply iteration_steps in H.
  destruct H as (s1 & s2 & s3 & local & i & ind & H1 & H2 & H3 & _ & _ & _
                 & s5 & E5 & Hctl).
  apply check_generation_inv in H1. destruct H1 as (_ & ->).
  apply truncation_inv in H2. destruct H2 as (gen & ev & _ & _ & ->).
  apply update_vector_inv in H3. destruct H3 as (v & Hv & ->).
  apply update_dimensions_range in Hv. cbn in Hv. destruct Hv as (Emin & Emax).
  assert (E : vector s5 = v).
  { subst s5. destruct (ltb local _); reflexivity. }
  destruct ctl.
  - destruct (new_generation_settings _ _ _ _ _ _ Hctl) as (_ & Ev & _).
    rewrite Ev, E. auto.
  - destruct Hctl as (-> & _). rewrite E. auto.
Qed.

(** The loop keeps the shapes of the arrays: if every individual has
    [n_variables] coordinates and the rows of means and of standard
    deviations have [n_variables] entries when the loop starts, the same
    holds when it ends, and the initial-range rows of the model (rows 2 and
    3 of [vector]) are never written. *)
Theorem loop_keeps_shapes
  (RNG : Type) (draw : RNG -> float -> float -> float * RNG)
  (norm_fit : list float -> result (float * float))
  (argsort : list float -> list nat) (f : objective)
  (n : nat) (c c' : frame RNG) (k : nat) :
  well_formed (self c) ->
  for_range draw norm_fit argsort f n c = Ok (c', k) ->
  well_formed (self c') /\
  v_min (vector (self c')) = v_min (vector (self c)) /\
  v_max (vector (self c')) = v_max (vector (self c)).
Proof.
  revert c c' k. induction n as [|n IH]; cbn [for_range]; intros c c' k Hw H.
  - inv_ok. auto.
  - inv_bind H. destruct a as [c1 ctl].
    pose proof (iteration_shapes _ _ _ _ _ _ _ _ Ha Hw) as W1.
    pose proof (iteration_range_rows _ _ _ _ _ _ _ _ Ha) as (E1 & E2).
    destruct ctl.
    + inv_bind H. destruct a as [c2 k2]. inv_ok.
      destruct (IH _ _ _ W1 Ha0) as (W2 & E3 & E4).
      rewrite E3, E4. auto.
    + inv_ok. auto.
Qed.

(** [loop_keeps_shapes], witness. *)
Lemma loop_keeps_shapes_witness :
  exists c' k,
    reference_loop Instances.first_coordinate 10
      (mk_frame (fst constructed_example) (snd constructed_example) 0)
      = Ok (c', k) /\
    well_formed (self c').
Proof.
  assert (Hw : well_formed (fst constructed_example)).
  { unfold well_formed. cbn. repeat split; try discriminate.
    repeat constructor. }
  assert (H : {x | reference_loop Instances.first_coordinate 10
                     (mk_frame (fst constructed_example)
                               (snd constructed_example) 0) = Ok x})
    by (eexists; vm_compute; reflexivity).
  destruct H as [[c' k] H].
  exists c', k. split; [exact H|].
  exact (proj1 (loop_keeps_shapes nat Instances.draw Instances.norm_fit
                  Instances.argsort Instances.first_coordinate 10
                  (mk_frame (fst constructed_example)
                            (snd constructed_example) 0)
                  c' k Hw H)).
Defined.

(** After a re-fit step on an instance with well-shaped arrays, no
    standard deviation of the model has its sign bit set, so the sampling
    call of the new-generation step passes numpy's [scale >= 0] check: for
    a non-negative [size_gen] and a defined elite count,
    [_new_generation] succeeds and leaves well-shaped arrays. *)
Theorem refit_then_sample
  (RNG : Type) (draw : RNG -> float -> float -> float * RNG)
  (norm_fit : list float -> result (float * float))
  (s s' : UMDA) (g : RNG) (k : Z) :
  well_formed s ->
  0 <= size_gen s ->
  elite_count s = Ok k ->
  _update_vector norm_fit s = Ok s' ->
  existsb sign_bit (v_std (vector s')) = false /\
  exists s'' g',
    _new_generation draw s' g = Ok (s'', g') /\
    well_formed s'' /\
    Z.of_nat (length (generation s'')) =
      Z.of_nat (length (slice_to k (generation s))) + size_gen s.
Proof.
  intros Hw Hsz Hk Hu.
  destruct (update_vector_shapes _ _ _ Hu Hw) as (W' & Hsign & Eg & Es).
  split; [assumption|].
  assert (Esz : size_gen s' = size_gen s)
    by (unfold settings in Es; congruence).
  assert (En : n_variables s' = n_variables s)
    by (unfold settings in Es; congruence).
  destruct W' as (Hn & Hg & Hmu & Hstd).
  destruct (normal_succeeds RNG draw g (v_mu (vector s')) (v_std (vector s'))
              (size_gen s') (n_variables s'))
    as (fresh & g' & Hnorm); try assumption; [lia|].
  pose proof (normal_shape _ _ _ _ _ _ _ _ _ Hnorm) as (_ & _ & Hfl & Hfw & _).
  assert (Hk' : elite_count s' = Ok k).
  { unfold elite_count in *. rewrite Eg. assumption. }
  assert (Hall : Forall (fun r => length r = Z.to_nat (n_variables s'))
                        (slice_to k (generation s') ++ fresh)).
  { apply Forall_app. split; [|assumption].
    destruct (slice_to_prefix k (generation s')) as (m & ->).
    rewrite Forall_forall in *. intros row Hrow. apply Hg.
    eapply In_firstn; eassumption. }
  exists (with_generation (slice_to k (generation s') ++ fresh) s'), g'.
  split; [|split].
  - unfold _new_generation. rewrite Hnorm. cbn [bind]. rewrite Hk'.
    cbn [bind]. unfold vstack.
    rewrite (same_width_Forall _ _ Hall). reflexivity.
  - unfold well_formed. cbn. repeat split; assumption.
  - cbn [generation with_generation].
    rewrite length_app, Nat2Z.inj_add, Hfl, Eg, Esz. reflexivity.
Qed.

(** [refit_then_sample], witness: the truncated example. *)
Lemma refit_then_sample_witness :
  exists s' s'' g' k,
    _update_vector Instances.norm_fit (fst truncated_example) = Ok s' /\
    elite_count (fst truncated_example) = Ok k /\
    _new_generation Instances.draw s' (snd truncated_example) = Ok (s'', g') /\
    well_formed s''.
Proof.
  assert (Hw : well_formed (fst truncated_example)).
  { unfold well_formed. cbn. repeat split; try discriminate.
    repeat constructor. }
  assert (Hk : {k | elite_count (fst truncated_example) = Ok k})
    by (eexists; vm_compute; reflexivity).
  destruct Hk as [k Hk].
  assert (Hu : {x | _update_vector Instances.norm_fit (fst truncated_example)
                    = Ok x})
    by (eexists; vm_compute; reflexivity).
  destruct Hu as [s' Hu].
  assert (Hs : 0 <= size_gen (fst truncated_example))
    by (vm_compute; discriminate).
  destruct (refit_then_sample nat Instances.draw Instances.norm_fit
              (fst truncated_example) s' (snd truncated_example) k
              Hw Hs Hk Hu) as (_ & s'' & g' & Hg & Hw'' & _).
  exists s', s'', g', k. auto.
Defined.

(** ** Runs that raise *)

(** On an instance without individuals (for one, an instance constructed
    with [size_gen = 0]) a call of [minimize] with a positive [max_iter]
    raises [ValueError]: [np.apply_along_axis] has nothing to iterate
    over. *)
Theorem minimize_empty_population
  (RNG : Type) (draw : RNG -> float -> float -> float * RNG)
  (norm_fit : list float -> result (float * float))
  (argsort : list float -> list nat) (f : objective) (s : UMDA) (g : RNG) :
  generation s = [] ->
  0 < max_iter s ->
  minimize draw norm_fit argsort f s g = Raise ValueError.
Proof.
  intros Hg Hm. unfold minimize.
  change (max_iter (with_history [] s)) with (max_iter s).
  destruct (Z.to_nat (max_iter s)) as [|n] eqn:En; [lia|].
  cbn [for_range]. unfold iteration, _check_generation.
  cbn [self generation with_history]. rewrite Hg. reflexivity.
Qed.

(** [minimize_empty_population], witness: [size_gen = 0]. *)
Lemma minimize_empty_population_witness :
  exists s g,
    __init__ Instances.draw 0%nat 10 0 1 (literal 5 1) false = Ok (s, g) /\
    reference_minimize Instances.first_coordinate s g = Raise ValueError.
Proof.
  assert (H : {x | __init__ Instances.draw 0%nat 10 0 1 (literal 5 1) false
                   = Ok x})
    by (eexists; vm_compute; reflexivity).
  destruct H as [[s g] H].
  exists s, g. split; [exact H|].
  apply init_inv in H.
  destruct H as (vec & dead & prod & tl & gen & _ & _ & _ & _ & Hn & ->).
  apply normal_rows in Hn. destruct Hn as (_ & Hl).
  apply minimize_empty_population.
  - cbn [generation]. destruct gen; [reflexivity|]. simpl in Hl. lia.
  - cbn [max_iter]. lia.
Defined.

(** [minimize_empty_elite], witness: [size_gen = 1], [alpha = 0.1]. *)
Lemma minimize_empty_elite_witness :
  exists s g e,
    __init__ Instances.draw 0%nat 10 1 1 (literal 1 1) false = Ok (s, g) /\
    reference_minimize Instances.first_coordinate s g = Raise e.
Proof.
  assert (H : {x | __init__ Instances.draw 0%nat 10 1 1 (literal 1 1) false
                   = Ok x})
    by (eexists; vm_compute; reflexivity).
  destruct H as [[s g] H].
  assert (Ht : truncation_length s = 0 /\ 0 < max_iter s).
  { apply init_inv in H.
    destruct H as (vec & dead & prod & tl & gen & _ & _ & Hp & Ht & _ & ->).
    cbn [truncation_length max_iter]. split; [|lia].
    vm_compute in Hp. injection Hp as <-.
    vm_compute in Ht. injection Ht as <-. reflexivity. }
  destruct (minimize_empty_elite nat Instances.draw Instances.norm_fit
              Instances.argsort Instances.first_coordinate s g
              (proj1 Ht) (proj2 Ht)) as (e & He).
  exists s, g, e. split; [exact H|exact He].
Defined.

Lemma eqb_nan_l (b a : float) : is_nan b = true -> eqb b a = false.
Proof. destruct b; simpl; intros H; try discriminate. reflexivity. Qed.

(** When the objective returns NaN at every point, an iteration whose
    evaluation, truncation and re-fit steps succeed with a non-empty elite
    set raises [IndexError]: the minimum is NaN, no evaluation compares
    equal to it, and indexing the empty answer of [np.where] fails. *)
Theorem nan_objective_raises
  (RNG : Type) (draw : RNG -> float -> float -> float * RNG)
  (norm_fit : list float -> result (float * float))
  (argsort : list float -> list nat) (f : objective)
  (c : frame RNG) (s1 s2 s3 : UMDA) :
  (forall p, is_nan (f p) = true) ->
  _check_generation f (self c) = Ok s1 ->
  _truncation argsort s1 = Ok s2 ->
  generation s2 <> [] ->
  _update_vector norm_fit s2 = Ok s3 ->
  iteration draw norm_fit argsort f c = Raise IndexError.
Proof.
  intros Hnan H1 H2 Hne H3.
  pose proof (check_truncate_aligned _ _ _ _ _ H1 H2) as Hal.
  unfold iteration. rewrite H1. cbn [bind]. rewrite H2. cbn [bind].
  rewrite H3. cbn [bind].
  apply update_vector_inv in H3. destruct H3 as (v & _ & ->).
  cbn [evaluations with_vector with_history]. rewrite Hal.
  destruct (generation s2) as [|p t] eqn:Eg; [contradiction|].
  cbn [map py_min bind].
  rewrite where_first_none; [reflexivity|].
  intros b Hb. apply eqb_nan_l.
  change (In b (map f (p :: t))) in Hb.
  apply in_map_iff in Hb. destruct Hb as (q & <- & _). apply Hnan.
Qed.

(** [nan_objective_raises], witness: the constant objective NaN on the
    constructed example. *)
Lemma nan_objective_raises_witness :
  reference_iteration (Instances.constant nan)
    (mk_frame (fst constructed_example) (snd constructed_example) 0)
    = Raise IndexError.
Proof.
  assert (H1 : {x | _check_generation (Instances.constant nan)
                      (fst constructed_example) = Ok x})
    by (eexists; vm_compute; reflexivity).
  destruct H1 as [s1 H1].
  assert (H2 : {x | reference_truncated (Instances.constant nan)
                      (fst constructed_example) = Ok x
                    /\ generation x <> []}).
  { eexists. split; [vm_compute; reflexivity|]. discriminate. }
  destruct H2 as [s2 [H2 Hne]].
  unfold reference_truncated in H2. rewrite H1 in H2. cbn [bind] in H2.
  assert (H3 : {x | (s <- reference_truncated (Instances.constant nan)
                           (fst constructed_example) ;;
                     _update_vector Instances.norm_fit s) = Ok x})
    by (eexists; vm_compute; reflexivity).
  destruct H3 as [s3 H3].
  unfold reference_truncated in H3. rewrite H1 in H3. cbn [bind] in H3.
  rewrite H2 in H3. cbn [bind] in H3.
  exact (nan_objective_raises nat Instances.draw Instances.norm_fit
           Instances.argsort (Instances.constant nan)
           (mk_frame (fst constructed_example) (snd constructed_example) 0)
           s1 s2 s3 (fun _ => eq_refl) H1 H2 Hne H3).
Defined.

(** ** Early termination with an integer threshold *)

Lemma int_eqb_integer_value (z d : Z) (x : float) :
  integer_value x = Some d -> int_eqb z x = (z =? d).
Proof. unfold int_eqb. intros ->. reflexivity. Qed.

(** When [dead_iter] has the integer value [d] and the objective is
    nowhere below the best-ever fitness, so that no iteration improves,
    the loop entered with the counter at [nb < d] runs exactly
    [min(n, d - nb)] iterations: it stops after [d - nb] consecutive
    iterations without improvement unless the iteration budget [n] ends
    first. *)
Theorem stagnation_stops_loop
  (RNG : Type) (draw : RNG -> float -> float -> float * RNG)
  (norm_fit : list float -> result (float * float))
  (argsort : list float -> list nat) (f : objective) (d : Z)
  (n : nat) (c c' : frame RNG) (k : nat) :
  integer_value (dead_iter (self c)) = Some d ->
  0 <= not_better c < d ->
  (forall p, ltb (f p) (best_mae_global (self c)) = false) ->
  for_range draw norm_fit argsort f n c = Ok (c', k) ->
  Z.of_nat k = Z.min (Z.of_nat n) (d - not_better c).
Proof.
  revert c c' k. induction n as [|n IH]; cbn [for_range];
    intros c c' k Hd Hnb Hf H.
  - inv_ok. lia.
  - inv_bind H. destruct a as [c1 ctl].
    apply iteration_spec in Ha.
    destruct Ha as (Hs & local & _ & (p & _ & ->) & Hb).
    rewrite Hf in Hb. destruct Hb as (Eb & _ & Enb & Hbrk).
    rewrite (int_eqb_integer_value _ d _ Hd) in Hbrk.
    assert (Ed : dead_iter (self c1) = dead_iter (self c))
      by (unfold settings in Hs; congruence).
    destruct ctl.
    + inv_bind H. destruct a as [c2 k2]. inv_ok.
      assert (Hne : not_better c + 1 <> d).
      { intros E. apply Z.eqb_eq in E. apply Hbrk in E. discriminate. }
      rewrite Nat2Z.inj_succ.
      rewrite (IH c1 c' k2); try assumption.
      * lia.
      * rewrite Ed. assumption.
      * lia.
      * intros q. rewrite Eb. apply Hf.
    + inv_ok.
      assert (E : not_better c + 1 = d).
      { apply Z.eqb_eq. apply Hbrk. reflexivity. }
      lia.
Qed.

(** [stagnation_stops_loop], witness: [max_iter = 10], [dead_iter = 2.0],
    the constant objective [10^12]: 2 iterations. *)
Lemma stagnation_stops_loop_witness :
  exists c' k,
    reference_loop (Instances.constant (of_small_int (10 ^ 12))) 10
      (mk_frame (fst constructed_example) (snd constructed_example) 0)
      = Ok (c', k) /\
    Z.of_nat k = 2.
Proof.
  assert (H : {x | reference_loop (Instances.constant (of_small_int (10 ^ 12)))
                     10 (mk_frame (fst constructed_example)
                                  (snd constructed_example) 0) = Ok x})
    by (eexists; vm_compute; reflexivity).
  destruct H as [[c' k] H].
  exists c', k. split; [exact H|].
  rewrite (stagnation_stops_loop nat Instances.draw Instances.norm_fit
             Instances.argsort (Instances.constant (of_small_int (10 ^ 12)))
             2 10 (mk_frame (fst constructed_example)
                            (snd constructed_example) 0) c' k).
  - reflexivity.
  - reflexivity.
  - cbn [not_better]. lia.
  - intros p. reflexivity.
  - exact H.
Defined.

(** ** The best individual of an iteration *)

Lemma take_Ok_map {A : Type} (d : A) (l : list A) (idx : list nat) l' :
  take l idx = Ok l' -> l' = map (fun i => nth i l d) idx.
Proof.
  unfold take. revert l'. induction idx as [|i t IH]; simpl; intros l' H.
  - inv_ok. reflexivity.
  - inv_bind H. inv_bind H. inv_ok.
    apply get_item_Ok in Ha. rewrite (nth_error_nth _ _ d Ha).
    f_equal. apply IH. assumption.
Qed.

Lemma eqb_refl (a : float) : is_nan a = false -> eqb a a = true.
Proof.
  unfold eqb, SFeqb. destruct a as [s|s| |s m e]; intros H;
    try discriminate; try (destruct s; reflexivity).
  rewrite SFcompare_finite. destruct s; rewrite lex_refl; reflexivity.
Qed.

Lemma py_min_sorted (a : float) (t : list float) :
  StronglySorted not_below (a :: t) -> py_min (a :: t) = Ok a.
Proof.
  intros H. inversion H as [|? ? _ Hall]; subst. cbn [py_min]. f_equal.
  clear H. induction t as [|b t IH]; [reflexivity|].
  inversion Hall as [|? ? Hb Ht]; subst. cbn [fold_left].
  unfold not_below in Hb. rewrite Hb. apply IH. assumption.
Qed.

(** When [argsort] answers with a sorting permutation, the first
    individual of the truncated population is the best of the iteration:
    the builtin [min] of the truncated evaluations is their first entry,
    and, unless that entry is NaN, the position that [np.where] finds for
    it is 0. *)
Theorem elite_head_is_best
  (argsort : list float -> list nat) (s s' : UMDA) (a : float)
  (t : list float) :
  sorts (evaluations s) (argsort (evaluations s)) ->
  _truncation argsort s = Ok s' ->
  evaluations s' = a :: t ->
  py_min (evaluations s') = Ok a /\
  (is_nan a = false -> where_first (evaluations s') a = Ok 0%nat).
Proof.
  intros (_ & Hsorted) H He. apply truncation_inv in H.
  destruct H as (gen & ev & _ & Hev & ->).
  cbn [evaluations with_evaluations] in *.
  apply (take_Ok_map nan) in Hev. unfold best_indices in Hev.
  destruct (slice_to_prefix (truncation_length s) (argsort (evaluations s)))
    as (m & Em).
  rewrite Em in Hev.
  assert (Hs : StronglySorted not_below ev).
  { rewrite Hev. apply StronglySorted_map. apply StronglySorted_firstn.
    exact Hsorted. }
  rewrite He in *. split.
  - apply py_min_sorted. assumption.
  - intros Hn. cbn [where_first]. rewrite (eqb_refl _ Hn). reflexivity.
Qed.

(** [elite_head_is_best], witness. *)
Lemma elite_head_is_best_witness :
  exists s' a t,
    _truncation Instances.argsort evaluated_example = Ok s' /\
    evaluations s' = a :: t /\
    py_min (evaluations s') = Ok a.
Proof.
  assert (Hs : sorts (evaluations evaluated_example)
                     (Instances.argsort (evaluations evaluated_example))).
  { apply sortsb_sound. vm_compute. reflexivity. }
  assert (H : {x | _truncation Instances.argsort evaluated_example = Ok x
                   /\ exists a t, evaluations x = a :: t}).
  { eexists. split; [vm_compute; reflexivity|].
    eexists _, _. reflexivity. }
  destruct H as [s' [H (a & t & He)]].
  exists s', a, t. split; [exact H|]. split; [exact He|].
  exact (proj1 (elite_head_is_best Instances.argsort evaluated_example s' a t
                  Hs H He)).
Defined.

(** ** An iteration that cannot raise *)

Lemma set_item_succeeds {A : Type} (i : nat) (a : A) l :
  (i < length l)%nat -> exists l', set_item i a l = Ok l'.
Proof.
  revert i; induction l as [|h t IH]; intros [|i] H; simpl in *; try lia.
  - eauto.
  - destruct (IH i) as (t' & ->); [lia|]. simpl. eauto.
Qed.

Lemma column_succeeds {A : Type} (n i : nat) (a : list (list A)) :
  Forall (fun r => length r = n) a -> (i < n)%nat ->
  exists col, column i a = Ok col.
Proof.
  intros H Hi. unfold column.
  induction H as [|r t Hr _ IH]; simpl; [eauto|].
  unfold get_item at 1.
  destruct (nth_error r i) eqn:E.
  - destruct IH as (col & ->). simpl. eauto.
  - apply nth_error_None in E. lia.
Qed.

Lemma column_In {A : Type} (i : nat) (a : list (list A)) col :
  column i a = Ok col ->
  forall x, In x col -> exists r, In r a /\ In x r.
Proof.
  intros H x Hx. unfold column in H.
  destruct (mapM_Ok_In _ _ _ H _ Hx) as (r & Hr & Hg).
  exists r. split; [assumption|]. eapply get_item_In; eassumption.
Qed.

Lemma update_dimension_succeeds
  (norm_fit : list float -> result (float * float))
  (gen : list (list float)) (v : prob_vector) (n i : nat) :
  Forall (fun r => length r = n) gen ->
  length (v_mu v) = n -> length (v_std v) = n -> (i < n)%nat ->
  (forall col, column i gen = Ok col -> exists r, norm_fit col = Ok r) ->
  exists v', update_dimension norm_fit gen v i = Ok v'.
Proof.
  intros Hg Hmu Hstd Hi Hfit. unfold update_dimension.
  destruct (column_succeeds n i gen Hg Hi) as (col & Hc). rewrite Hc.
  cbn [bind]. destruct (Hfit col Hc) as ([m sd] & ->). cbn [bind].
  destruct (set_item_succeeds i m (v_mu v)) as (mu1 & ->); [lia|].
  cbn [bind].
  destruct (set_item_succeeds i sd (v_std v)) as (std1 & Hs1); [lia|].
  rewrite Hs1. cbn [bind].
  unfold get_item. rewrite (set_item_same _ _ _ _ Hs1). cbn [bind].
  destruct (ltb sd STD_BOUND).
  - destruct (set_item_succeeds i STD_BOUND std1) as (std2 & ->).
    + rewrite (set_item_length _ _ _ _ Hs1). lia.
    + cbn [bind]. eauto.
  - cbn [bind]. eauto.
Qed.

Lemma update_dimensions_succeeds
  (norm_fit : list float -> result (float * float))
  (gen : list (list float)) (n : nat) (range : list nat) :
  Forall (fun r => length r = n) gen ->
  (forall i, In i range -> (i < n)%nat) ->
  (forall i col, column i gen = Ok col -> exists r, norm_fit col = Ok r) ->
  forall v,
    length (v_mu v) = n -> length (v_std v) = n ->
    exists v', update_dimensions norm_fit gen v range = Ok v'.
Proof.
  intros Hg Hr Hfit. induction range as [|i t IH]; intros v Hmu Hstd.
  - cbn. eauto.
  - cbn [update_dimensions].
    assert (Hi : (i < n)%nat) by (apply Hr; left; reflexivity).
    destruct (update_dimension_succeeds norm_fit gen v n i Hg Hmu Hstd Hi
                (Hfit i)) as (v1 & H1).
    rewrite H1. cbn [bind].
    assert (L : length (v_mu v1) = length (v_mu v) /\
                length (v_std v1) = length (v_std v)).
    { apply (update_dimensions_length norm_fit gen [i]).
      cbn [update_dimensions]. rewrite H1. reflexivity. }
    destruct L as (L1 & L2).
    apply IH.
    + intros j Hj. apply Hr. right. assumption.
    + congruence.
    + congruence.
Qed.

Lemma where_first_exists (l : list float) (a : float) :
  In a l -> eqb a a = true ->
  exists i, where_first l a = Ok i /\ (i < length l)%nat.
Proof.
  intros Hin He. induction l as [|b t IH]; [destruct Hin|].
  cbn [where_first]. destruct (eqb b a) eqn:E.
  - exists 0%nat. simpl. split; [reflexivity|lia].
  - destruct Hin as [->|Hin]; [congruence|].
    destruct (IH Hin) as (i & -> & Hi). exists (S i). simpl.
    split; [reflexivity|lia].
Qed.

Lemma new_generation_succeeds
  (RNG : Type) (draw : RNG -> float -> float -> float * RNG)
  (s : UMDA) (g : RNG) (k : Z) :
  well_formed s ->
  existsb sign_bit (v_std (vector s)) = false ->
  0 <= size_gen s ->
  elite_count s = Ok k ->
  exists s' g', _new_generation draw s g = Ok (s', g').
Proof.
  intros (Hn & Hg & Hmu & Hstd) Hsign Hsz Hk.
  destruct (normal_succeeds RNG draw g (v_mu (vector s)) (v_std (vector s))
              (size_gen s) (n_variables s) Hsz Hn Hmu Hstd Hsign)
    as (fresh & g' & Hnorm).
  pose proof (normal_shape _ _ _ _ _ _ _ _ _ Hnorm) as (_ & _ & _ & Hfw & _).
  assert (Hall : Forall (fun r => length r = Z.to_nat (n_variables s))
                        (slice_to k (generation s) ++ fresh)).
  { apply Forall_app. split; [|assumption].
    destruct (slice_to_prefix k (generation s)) as (m & ->).
    rewrite Forall_forall in *. intros row Hrow. apply Hg.
    eapply In_firstn; eassumption. }
  unfold _new_generation. rewrite Hnorm. cbn [bind]. rewrite Hk.
  cbn [bind]. unfold vstack. rewrite (same_width_Forall _ _ Hall).
  eexists _, _. reflexivity.
Qed.

Lemma truncation_succeeds
  (argsort : list float -> list nat) (s : UMDA) :
  Permutation (argsort (evaluations s)) (seq 0 (length (evaluations s))) ->
  length (generation s) = length (evaluations s) ->
  0 < truncation_length s ->
  evaluations s <> [] ->
  exists s',
    _truncation argsort s = Ok s' /\ evaluations s' <> [] /\
    length (generation s') = length (evaluations s') /\
    (length (generation s') <= length (generation s))%nat.
Proof.
  intros Hperm Hlen Htl Hne.
  assert (Hrange : forall i, In i (best_indices argsort s) ->
                             (i < length (evaluations s))%nat).
  { intros i Hi. unfold best_indices in Hi.
    destruct (slice_to_prefix (truncation_length s) (argsort (evaluations s)))
      as (m & Em).
    rewrite Em in Hi. apply In_firstn in Hi.
    apply (Permutation_in _ Hperm) in Hi. apply in_seq in Hi. lia. }
  assert (Hk : Z.of_nat (length (best_indices argsort s)) =
               Z.min (truncation_length s)
                     (Z.of_nat (length (evaluations s)))).
  { unfold best_indices. rewrite slice_to_length by lia.
    rewrite (Permutation_length Hperm), length_seq. reflexivity. }
  assert (Hpos : (0 < length (evaluations s))%nat).
  { destruct (evaluations s); [contradiction|simpl; lia]. }
  exists (with_evaluations
            (map (fun i => nth i (evaluations s) nan) (best_indices argsort s))
            (with_generation
               (map (fun i => nth i (generation s) []) (best_indices argsort s))
               s)).
  split; [|split; [|split]].
  - unfold _truncation.
    rewrite (take_in_range [] (generation s))
      by (rewrite Hlen; exact Hrange).
    cbn [bind].
    rewrite (take_in_range nan (evaluations s)) by exact Hrange.
    reflexivity.
  - cbn [evaluations with_evaluations]. intros E.
    apply (f_equal (@length float)) in E. rewrite length_map in E.
    simpl in E. lia.
  - cbn [generation evaluations with_evaluations with_generation].
    rewrite !length_map. reflexivity.
  - cbn [generation with_evaluations with_generation]. rewrite length_map.
    lia.
Qed.

(** An iteration returns, without raising, when: the arrays are
    well-shaped; the population is not empty and its coordinates are
    finite; [truncation_length] is positive and [size_gen] not negative;
    [argsort] answers with a permutation of the positions; the objective
    is not NaN on the population; [norm.fit] accepts finite data; and the
    elite count [int(ELITE_FACTOR * n)] is defined up to the population
    size. *)
Theorem iteration_succeeds
  (RNG : Type) (draw : RNG -> float -> float -> float * RNG)
  (norm_fit : list float -> result (float * float))
  (argsort : list float -> list nat) (f : objective) (c : frame RNG) :
  well_formed (self c) ->
  generation (self c) <> [] ->
  0 < truncation_length (self c) ->
  0 <= size_gen (self c) ->
  Permutation (argsort (map f (generation (self c))))
              (seq 0 (length (generation (self c)))) ->
  (forall p, In p (generation (self c)) -> is_nan (f p) = false) ->
  Forall (fun row => forallb is_finite row = true) (generation (self c)) ->
  (forall col, forallb is_finite col = true ->
               exists r, norm_fit col = Ok r) ->
  (forall n, (n <= length (generation (self c)))%nat ->
             exists k,
               to_int (mul ELITE_FACTOR (of_small_int (Z.of_nat n))) = Ok k) ->
  exists c' ctl, iteration draw norm_fit argsort f c = Ok (c', ctl).
Proof.
  intros Hw Hne Htl Hsz Hperm Hnan Hfin Hfit Hel.
  (* evaluation *)
  assert (H1 : _check_generation f (self c) =
               Ok (with_evaluations (map f (generation (self c))) (self c))).
  { unfold _check_generation.
    destruct (generation (self c)); [contradiction|reflexivity]. }
  remember (with_evaluations (map f (generation (self c))) (self c)) as s1
    eqn:E1.
  assert (G1 : generation s1 = generation (self c)) by (subst; reflexivity).
  assert (V1 : evaluations s1 = map f (generation (self c)))
    by (subst; reflexivity).
  assert (T1 : truncation_length s1 = truncation_length (self c))
    by (subst; reflexivity).
  assert (W1 : well_formed s1) by (subst; exact Hw).
  (* truncation *)
  destruct (truncation_succeeds argsort s1) as (s2 & H2 & Hne2 & Hl2 & Hle2).
  { rewrite V1, length_map. exact Hperm. }
  { rewrite G1, V1, length_map. reflexivity. }
  { rewrite T1. exact Htl. }
  { rewrite V1. destruct (generation (self c)); [contradiction|discriminate]. }
  pose proof (truncation_shapes _ _ _ H2 W1) as W2.
  pose proof (check_truncate_aligned _ _ _ _ _ H1 H2) as A2.
  destruct (truncation_inv _ _ _ H2) as (gen2 & ev2 & Hg2 & _ & E2).
  assert (Hsub : forall row, In row (generation s2) ->
                             In row (generation (self c))).
  { intros row Hrow. rewrite E2 in Hrow.
    cbn [generation with_evaluations with_generation] in Hrow.
    rewrite <- G1. eapply take_In; eassumption. }
  assert (Set2 : settings s2 = settings (self c))
    by (rewrite E2, E1; reflexivity).
  assert (B2 : best_mae_global s2 = best_mae_global (self c))
    by (rewrite E2, E1; reflexivity).
  assert (D2 : dead_iter s2 = dead_iter (self c))
    by (rewrite E2, E1; reflexivity).
  clear E2 Hg2 gen2 ev2.
  (* re-fit *)
  destruct W2 as (Hn2 & Wg2 & Lmu2 & Lstd2).
  destruct (update_dimensions_succeeds norm_fit (generation s2)
              (Z.to_nat (n_variables s2)) (seq 0 (Z.to_nat (n_variables s2)))
              Wg2) with (v := vector s2) as (v & Hv); try assumption.
  { intros i Hi. apply in_seq in Hi. lia. }
  { intros i col Hcol. apply Hfit. apply forallb_forall. intros x Hx.
    destruct (column_In _ _ _ Hcol x Hx) as (row & Hrow & Hxr).
    rewrite Forall_forall in Hfin.
    pose proof (Hfin row (Hsub row Hrow)) as Hf.
    rewrite forallb_forall in Hf. apply Hf. assumption. }
  assert (H3 : _update_vector norm_fit s2 = Ok (with_vector v s2)).
  { unfold _update_vector. rewrite Hv. reflexivity. }
  destruct (update_vector_shapes _ _ _ H3
              (conj Hn2 (conj Wg2 (conj Lmu2 Lstd2))))
    as (W3 & Hsign & _ & _).
  (* the best of the iteration *)
  assert (Hmin : exists local, py_min (evaluations s2) = Ok local).
  { destruct (evaluations s2); [contradiction|]. cbn. eauto. }
  destruct Hmin as (local & Hmin).
  assert (Hloc : eqb local local = true).
  { apply eqb_refl. pose proof (py_min_In _ _ Hmin) as Hin.
    rewrite A2 in Hin. apply in_map_iff in Hin.
    destruct Hin as (p & <- & Hp). apply Hnan. apply Hsub. assumption. }
  destruct (where_first_exists _ _ (py_min_In _ _ Hmin) Hloc)
    as (i & Hi & Hilt).
  assert (Hget : exists ind, get_item i (generation s2) = Ok ind).
  { unfold get_item. rewrite <- Hl2 in Hilt.
    destruct (nth_error (generation s2) i) eqn:E; [eauto|].
    apply nth_error_None in E. lia. }
  destruct Hget as (ind & Hget).
  (* the elite count and the new generation *)
  destruct (Hel (length (generation s2))) as (k & Hk).
  { rewrite <- G1. exact Hle2. }
  assert (Sz : size_gen s2 = size_gen (self c))
    by (unfold settings in Set2; congruence).
  assert (Hnew : forall s5,
             well_formed s5 -> vector s5 = v ->
             generation s5 = generation s2 -> size_gen s5 = size_gen s2 ->
             exists s6 g', _new_generation draw s5 (rng c) = Ok (s6, g')).
  { intros s5 W5 V5 G5 S5.
    apply (new_generation_succeeds RNG draw s5 (rng c) k); try assumption.
    - rewrite V5. exact Hsign.
    - rewrite S5, Sz. exact Hsz.
    - unfold elite_count. rewrite G5. exact Hk. }
  (* assembling the body *)
  unfold iteration. rewrite H1. cbn [bind]. rewrite H2. cbn [bind].
  rewrite H3. cbn [bind].
  cbn [evaluations generation history best_mae_global dead_iter
       with_vector with_history].
  rewrite Hmin. cbn [bind]. rewrite Hi. cbn [bind]. rewrite Hget. cbn [bind].
  destruct (ltb local (best_mae_global s2)).
  - destruct (Hnew (with_best local (Individual ind)
                      (with_history (history s2 ++ [local])
                                    (with_vector v s2))))
      as (s6 & g' & ->); try reflexivity.
    + exact W3.
    + cbn [bind]. eexists _, _. reflexivity.
  - destruct (int_eqb (not_better c + 1) (dead_iter s2)).
    + eexists _, _. reflexivity.
    + destruct (Hnew (with_history (history s2 ++ [local])
                                   (with_vector v s2)))
        as (s6 & g' & ->); try reflexivity.
      * exact W3.
      * cbn [bind]. eexists _, _. reflexivity.
Qed.

Lemma reference_norm_fit_finite (col : list float) :
  forallb is_finite col = true -> exists r, Instances.norm_fit col = Ok r.
Proof.
  intros H. unfold Instances.norm_fit. rewrite H. eauto.
Qed.

(** [iteration_succeeds], witness: the first iteration of the constructed
    example. *)
Lemma iteration_succeeds_witness :
  exists c' ctl,
    reference_iteration Instances.first_coordinate
      (mk_frame (fst constructed_example) (snd constructed_example) 0)
      = Ok (c', ctl).
Proof.
  apply iteration_succeeds.
  - unfold well_formed. cbn. repeat split; try discriminate.
    repeat constructor.
  - discriminate.
  - reflexivity.
  - discriminate.
  - apply Permutation_sym. apply NoDup_Permutation_bis.
    + apply seq_NoDup.
    + vm_compute. repeat constructor.
    + vm_compute. intros i Hi. tauto.
  - assert (H : forallb (fun p => negb (is_nan (Instances.first_coordinate p)))
                        (generation (fst constructed_example)) = true)
      by reflexivity.
    rewrite forallb_forall in H. intros p Hp. specialize (H p Hp).
    destruct (is_nan (Instances.first_coordinate p));
      [discriminate|reflexivity].
  - apply Forall_forall. apply forallb_forall. reflexivity.
  - exact reference_norm_fit_finite.
  - intros n Hn.
    change (length (generation (self (mk_frame (fst constructed_example)
                                               (snd constructed_example) 0))))
      with 4%nat in Hn.
    destruct n as [|[|[|[|[|n]]]]]; try lia; eexists; vm_compute; reflexivity.
Defined.

(** ** Writing [n_variables] after construction *)

Lemma update_dimensions_app
  (norm_fit : list float -> result (float * float))
  (gen : list (list float)) (l1 l2 : list nat) :
  forall v,
    update_dimensions norm_fit gen v (l1 ++ l2) =
    (v1 <- update_dimensions norm_fit gen v l1 ;;
     update_dimensions norm_fit gen v1 l2).
Proof.
  induction l1 as [|i t IH]; intros v; [reflexivity|].
  cbn [app update_dimensions].
  destruct (update_dimension norm_fit gen v i) as [v1|e]; [|reflexivity].
  cbn [bind]. apply IH.
Qed.

Lemma column_out_of_range {A : Type} (i : nat) (r : list A) (t : list (list A)) :
  (length r <= i)%nat -> column i (r :: t) = Raise IndexError.
Proof.
  intros H. unfold column. cbn [mapM]. unfold get_item at 1.
  destruct (nth_error r i) eqn:E; [|reflexivity].
  assert (i < length r)%nat by (apply nth_error_Some; congruence). lia.
Qed.

(** After [n_variables] is set above the number of columns that the
    arrays have, the next re-fit step raises [IndexError], for a non-empty
    population whose existing columns [norm.fit] accepts: the loop over the
    dimensions reaches a column that does not exist. *)
Theorem refit_after_larger_n_variables
  (norm_fit : list float -> result (float * float))
  (s : UMDA) (value : Z) :
  well_formed s ->
  generation s <> [] ->
  n_variables s < value ->
  (forall i col,
     column i (generation s) = Ok col -> exists r, norm_fit col = Ok r) ->
  _update_vector norm_fit (set_n_variables value s) = Raise IndexError.
Proof.
  intros (Hn & Hg & Hmu & Hstd) Hne Hv Hfit.
  unfold _update_vector.
  cbn [generation vector n_variables set_n_variables with_n_variables].
  set (n := Z.to_nat (n_variables s)) in *.
  assert (Es : seq 0 (Z.to_nat value) =
               seq 0 n ++ n :: seq (S n) (Z.to_nat value - S n)).
  { replace (Z.to_nat value) with (n + S (Z.to_nat value - S n))%nat
      by (unfold n; lia).
    rewrite seq_app. cbn [seq plus]. f_equal. f_equal. f_equal. lia. }
  rewrite Es, update_dimensions_app.
  destruct (update_dimensions_succeeds norm_fit (generation s) n (seq 0 n) Hg)
    with (v := vector s) as (v1 & ->); try assumption.
  { intros i Hi. apply in_seq in Hi. lia. }
  cbn [bind update_dimensions]. unfold update_dimension.
  destruct (generation s) as [|r t]; [contradiction|].
  rewrite column_out_of_range; [reflexivity|].
  inversion Hg; subst. lia.
Qed.

(** [refit_after_larger_n_variables], witness: the constructed example,
    of one column, with [n_variables] set to 2 and the reference fit, which
    accepts the one column of finite numbers. *)
Lemma refit_after_larger_n_variables_witness :
  _update_vector Instances.norm_fit
                 (set_n_variables 2 (fst constructed_example))
    = Raise IndexError.
Proof.
  apply refit_after_larger_n_variables.
  - unfold well_formed. cbn. repeat split; try discriminate.
    repeat constructor.
  - discriminate.
  - reflexivity.
  - intros i col Hc. apply reference_norm_fit_finite.
    apply forallb_forall. intros x Hx.
    destruct (column_In _ _ _ Hc x Hx) as (r & Hr & Hxr).
    assert (Hall : forallb (forallb is_finite)
                     (generation (fst constructed_example)) = true)
      by (vm_compute; reflexivity).
    rewrite forallb_forall in Hall. specialize (Hall r Hr).
    rewrite forallb_forall in Hall. exact (Hall x Hxr).
Defined.

(** After [n_variables] is set to a value other than the number of
    columns of a model that has at least two columns, the next
    new-generation step raises [ValueError]: the rows of means and
    deviations do not broadcast to the requested shape. *)
Theorem sampling_after_other_n_variables
  (RNG : Type) (draw : RNG -> float -> float -> float * RNG)
  (s : UMDA) (g : RNG) (value : Z) :
  well_formed s ->
  2 <= n_variables s ->
  value <> n_variables s ->
  _new_generation draw (set_n_variables value s) g = Raise ValueError.
Proof.
  intros (Hn & Hg & Hmu & Hstd) H2 Hv.
  unfold _new_generation, normal.
  cbn [vector size_gen n_variables set_n_variables with_n_variables].
  destruct (existsb sign_bit (v_std (vector s))); [reflexivity|].
  destruct ((size_gen s <? 0) || (value <? 0)); [reflexivity|].
  unfold broadcast at 1. rewrite Hmu.
  destruct (Z.of_nat (Z.to_nat (n_variables s)) =? value) eqn:E.
  { apply Z.eqb_eq in E. lia. }
  destruct (v_mu (vector s)) as [|a [|b t]]; [reflexivity| |reflexivity].
  simpl in Hmu. lia.
Qed.

(** [sampling_after_other_n_variables], witness: a two-column instance
    with [n_variables] set to 3. *)
Lemma sampling_after_other_n_variables_witness :
  _new_generation Instances.draw
    (set_n_variables 3 (fst truncated_example)) (snd truncated_example)
    = Raise ValueError.
Proof.
  apply sampling_after_other_n_variables.
  - unfold well_formed. cbn. repeat split; try discriminate.
    repeat constructor.
  - discriminate.
  - discriminate.
Defined.

(** ** The two float expressions on small integers *)

(** [elite_count_floor], witness: a population of 10. *)
Lemma elite_count_floor_witness :
  to_int (mul ELITE_FACTOR (of_small_int (Z.of_nat 10))) =
    Ok (2 * Z.of_nat 10 / 5).
Proof. apply elite_count_floor. lia. Defined.

(** [dead_iter_integer_value], witness: [max_iter = 7]. *)
Lemma dead_iter_integer_value_witness :
  exists d,
    int_truediv (Z.of_nat 7) 5 = Ok d /\
    integer_value d =
      if Z.of_nat 7 mod 5 =? 0 then Some (Z.of_nat 7 / 5) else None.
Proof. apply dead_iter_integer_value. lia. Defined.
